(** * stonkwise: the Poetry helper scripts ([poetry_scripts.py])

    A shallow embedding of the six helper commands of [poetry_scripts.py]
    ([run_format], [run_lint], [run_test], [run_clean], [run_example],
    [run_verify]) and the properties of their control flow.

    Python strings are modelled by [string].  Every separator, prefix and
    suffix the scripts test for is ASCII, so the byte-wise operations below
    agree with Python's on UTF-8 encoded text. *)

From Stdlib Require Import String Ascii List ZArith Bool Arith Lia.
Import ListNotations.

Open Scope string_scope.
Open Scope list_scope.

Set Warnings "-register-all".

(** ** Python string methods *)

Module Str.

(** [s.startswith(p)] *)
Definition startswith (s p : string) : bool := String.prefix p s.

(** [s.endswith(suf)]: some tail of [s] is [suf]. *)
Fixpoint endswith (s suf : string) : bool :=
  String.eqb s suf ||
  match s with
  | EmptyString => false
  | String _ s' => endswith s' suf
  end.

(** [s.split(sep)] for a one-character separator: the segments between
    the occurrences of [sep], always at least one. *)
Fixpoint split (sep : ascii) (s : string) : list string :=
  match s with
  | EmptyString => [EmptyString]
  | String c s' =>
      if Ascii.eqb c sep then EmptyString :: split sep s'
      else match split sep s' with
           | [] => [String c EmptyString]
           | seg :: segs => String c seg :: segs
           end
  end.


(** [c in s] *)
Fixpoint contains (c : ascii) (s : string) : bool :=
  match s with
  | EmptyString => false
  | String c' s' => Ascii.eqb c' c || contains c s'
  end.

(** The part of [s] before its first [c]; all of [s] when it has none. *)
Fixpoint before (c : ascii) (s : string) : string :=
  match s with
  | EmptyString => EmptyString
  | String c' s' => if Ascii.eqb c' c then EmptyString else String c' (before c s')
  end.

(** The part of [s] after its first [c]; empty when it has none. *)
Fixpoint after (c : ascii) (s : string) : string :=
  match s with
  | EmptyString => EmptyString
  | String c' s' => if Ascii.eqb c' c then s' else after c s'
  end.

End Str.

(** The newline character of the Python literals ["\n..."]. *)
Definition nl : string := String "010"%char EmptyString.

(** ** Exceptions and results *)

Inductive exn : Type :=
| CalledProcessError (returncode : Z) (cmd : list string)
| IndexError
| FileNotFoundError (path : string)
| NotADirectoryError (path : string)
| IsADirectoryError (path : string)
| OSError (path : string)
| RecursionError.

Inductive result (A : Type) : Type :=
| Ok (a : A)
| Raise (e : exn).

Arguments Ok {A} a.
Arguments Raise {A} e.

(** [l[i]] on a Python list, for [i >= 0]. *)
Definition subscript (l : list string) (i : nat) : result string :=
  match nth_error l i with
  | Some v => Ok v
  | None => Raise IndexError
  end.

(** ** The argument parser of [run_example] (lines 98-110) *)

Record params : Type := Params {
  ticker : string;
  period : string;
  strategy : string
}.

Definition defaults : params :=
  {| ticker := "MSFT"; period := "day"; strategy := "simple" |}.

(** One turn of the loop [for arg in args]. *)
Definition parse_arg (p : params) (arg : string) : result params :=
  if Str.startswith arg "--ticker=" then
    match subscript (Str.split "=" arg) 1 with
    | Ok v => Ok {| ticker := v; period := period p; strategy := strategy p |}
    | Raise e => Raise e
    end
  else if Str.startswith arg "--period=" then
    match subscript (Str.split "=" arg) 1 with
    | Ok v => Ok {| ticker := ticker p; period := v; strategy := strategy p |}
    | Raise e => Raise e
    end
  else if Str.startswith arg "--strategy=" then
    match subscript (Str.split "=" arg) 1 with
    | Ok v => Ok {| ticker := ticker p; period := period p; strategy := v |}
    | Raise e => Raise e
    end
  else Ok p.

Fixpoint parse_args (p : params) (args : list string) : result params :=
  match args with
  | [] => Ok p
  | arg :: rest =>
      match parse_arg p arg with
      | Ok p' => parse_args p' rest
      | Raise e => Raise e
      end
  end.

(** [args] is [Optional[List[str]]]; [if args:] is false on [None] and on
    the empty list. *)
Definition truthy (args : option (list string)) : bool :=
  match args with
  | Some (_ :: _) => true
  | _ => false
  end.

Definition example_params (args : option (list string)) : result params :=
  if truthy args then
    match args with
    | Some l => parse_args defaults l
    | None => Ok defaults
    end
  else Ok defaults.

(** The three flags, for statements that range over them. *)
Inductive flag : Type := Ticker | Period | Strategy.

Definition flag_prefix (k : flag) : string :=
  match k with
  | Ticker => "--ticker="
  | Period => "--period="
  | Strategy => "--strategy="
  end.

Definition get (k : flag) (p : params) : string :=
  match k with
  | Ticker => ticker p
  | Period => period p
  | Strategy => strategy p
  end.

Definition set (k : flag) (v : string) (p : params) : params :=
  match k with
  | Ticker => {| ticker := v; period := period p; strategy := strategy p |}
  | Period => {| ticker := ticker p; period := v; strategy := strategy p |}
  | Strategy => {| ticker := ticker p; period := period p; strategy := v |}
  end.

(** A token the parser acts on. *)
Definition recognized (arg : string) : bool :=
  Str.startswith arg "--ticker=" || Str.startswith arg "--period=" ||
  Str.startswith arg "--strategy=".

(** The change one token makes to the parameters. *)
Definition arg_effect (p : params) (arg : string) : params :=
  match parse_arg p arg with
  | Ok p' => p'
  | Raise _ => p
  end.

(** ** The file tree under the current working directory

    [run_clean] only reads and removes entries, so a file carries no
    content.  A directory lists its entries in the order [os.listdir] and
    [os.walk] report them.  Symbolic links and permissions are outside the
    model: every entry is a regular file or a directory that can be removed. *)

Inductive node : Type :=
| File
| Dir (entries : list (string * node)).

Definition directory : Type := list (string * node).

Definition is_dir (n : node) : bool :=
  match n with
  | Dir _ => true
  | File => false
  end.

Fixpoint height (n : node) : nat :=
  match n with
  | File => 0
  | Dir es => S (list_max (map (fun e => let '(_, c) := e in height c) es))
  end.

(** A name an entry can have: not empty, not [.] or [..], without [/]. *)
Definition valid_name (s : string) : bool :=
  negb (String.eqb s "") && negb (String.eqb s ".") &&
  negb (String.eqb s "..") && negb (Str.contains "/" s).

Fixpoint distinct (l : list string) : bool :=
  match l with
  | [] => true
  | x :: l' => negb (existsb (String.eqb x) l') && distinct l'
  end.

(** The names of a directory are valid and pairwise distinct, at every
    level. *)
Fixpoint wf_node (n : node) : bool :=
  match n with
  | File => true
  | Dir es =>
      distinct (map fst es) && forallb valid_name (map fst es) &&
      forallb (fun e => let '(_, c) := e in wf_node c) es
  end.

Definition wf (fs : directory) : bool := wf_node (Dir fs).

Fixpoint lookup (c : string) (es : directory) : option node :=
  match es with
  | [] => None
  | (k, x) :: es' => if String.eqb k c then Some x else lookup c es'
  end.

(** Follow the components [p] down from [n]. *)
Fixpoint find (p : list string) (n : node) : option node :=
  match p with
  | [] => Some n
  | c :: p' =>
      match n with
      | File => None
      | Dir es =>
          match lookup c es with
          | Some x => find p' x
          | None => None
          end
      end
  end.

Fixpoint update (c : string) (f : node -> node) (es : directory) : directory :=
  match es with
  | [] => []
  | (k, x) :: es' =>
      if String.eqb k c then (k, f x) :: es' else (k, x) :: update c f es'
  end.

Definition on_dir (f : directory -> directory) (n : node) : node :=
  match n with
  | File => File
  | Dir es => Dir (f es)
  end.

(** Apply [f] to the entries of the directory reached by [p]. *)
Fixpoint alter (p : list string) (f : directory -> directory)
  (es : directory) : directory :=
  match p with
  | [] => f es
  | c :: p' => update c (on_dir (alter p' f)) es
  end.

Definition delete (c : string) (es : directory) : directory :=
  filter (fun e => negb (String.eqb (fst e) c)) es.

(** *** Paths

    A path is a string relative to the current working directory.  Its
    components are the segments between [/]; empty segments and [.] stand
    for the directory itself.  ([..] and absolute paths do not occur in the
    scripts.) *)

Definition path_components (p : string) : list string :=
  filter (fun c => negb (String.eqb c "") && negb (String.eqb c "."))
         (Str.split "/" p).

(** [os.stat(p)]: the entry a path names, if any.  A path with a trailing
    slash names directories only. *)
Definition stat (fs : directory) (p : string) : option node :=
  if String.eqb p "" then None
  else match find (path_components p) (Dir fs) with
       | Some File => if Str.endswith p "/" then None else Some File
       | r => r
       end.

(** The parent components and the name of the last component. *)
Definition split_last (cs : list string) : option (list string * string) :=
  match rev cs with
  | [] => None
  | c :: rparent => Some (rev rparent, c)
  end.

(** Remove the entry a path names from its parent directory. *)
Definition unlink (fs : directory) (p : string) : option directory :=
  match split_last (path_components p) with
  | Some (parent, c) => Some (alter parent (delete c) fs)
  | None => None
  end.

(** [os.path.join(a, b)] *)
Definition os_path_join (a b : string) : string :=
  if Str.startswith b "/" then b
  else if String.eqb a "" || Str.endswith a "/" then String.append a b
  else String.append a (String.append "/" b).

(** ** The world: the file tree and what has been printed and launched *)

Inductive event : Type :=
| Print (line : string)
| Run (cmd : list string) (returncode : Z).

Record world : Type := World {
  cwd : directory;
  out : list event
}.

(** The commands launched in a trace, in order. *)
Fixpoint launches (evs : list event) : list (list string) :=
  match evs with
  | [] => []
  | Print _ :: evs' => launches evs'
  | Run cmd _ :: evs' => cmd :: launches evs'
  end.

(** ** A state and exception monad over the world *)

Definition M (A : Type) : Type := world -> result A * world.

Definition ret {A : Type} (a : A) : M A := fun w => (Ok a, w).

Definition raise {A : Type} (e : exn) : M A := fun w => (Raise e, w).

Definition bind {A B : Type} (m : M A) (k : A -> M B) : M B :=
  fun w =>
    match m w with
    | (Ok a, w') => k a w'
    | (Raise e, w') => (Raise e, w')
    end.

Declare Scope monad_scope.
Delimit Scope monad_scope with monad.
Notation "x <- m ;; k" := (bind m (fun x => k))
  (at level 61, m at next level, right associativity) : monad_scope.
Notation "m ;; k" := (bind m (fun _ => k))
  (at level 61, right associativity) : monad_scope.
Open Scope monad_scope.

(** [for x in l: body(x)] *)
Fixpoint for_each {A : Type} (l : list A) (body : A -> M unit) : M unit :=
  match l with
  | [] => ret tt
  | x :: l' => body x ;; for_each l' body
  end.

Definition print (line : string) : M unit :=
  fun w => (Ok tt, {| cwd := cwd w; out := out w ++ [Print line] |}).

Definition get_cwd : M directory := fun w => (Ok (cwd w), w).

Definition put_cwd (fs : directory) : M unit :=
  fun w => (Ok tt, {| cwd := fs; out := out w |}).

(** *** The [os], [os.path] and [shutil] calls of [run_clean] *)

Definition exists_at (fs : directory) (p : string) : bool :=
  match stat fs p with
  | Some _ => true
  | None => false
  end.

Definition isdir_at (fs : directory) (p : string) : bool :=
  match stat fs p with
  | Some n => is_dir n
  | None => false
  end.

Definition os_path_exists (p : string) : M bool :=
  fs <- get_cwd ;;
  ret (exists_at fs p).

Definition os_path_isdir (p : string) : M bool :=
  fs <- get_cwd ;;
  ret (isdir_at fs p).

Definition os_listdir (p : string) : M (list string) :=
  fs <- get_cwd ;;
  match stat fs p with
  | Some (Dir es) => ret (map fst es)
  | Some File => raise (NotADirectoryError p)
  | None => raise (FileNotFoundError p)
  end.

Definition shutil_rmtree (p : string) : M unit :=
  fs <- get_cwd ;;
  match stat fs p with
  | Some (Dir _) =>
      match unlink fs p with
      | Some fs' => put_cwd fs'
      | None => raise (OSError p)
      end
  | Some File => raise (NotADirectoryError p)
  | None => raise (FileNotFoundError p)
  end.

Definition os_remove (p : string) : M unit :=
  fs <- get_cwd ;;
  match stat fs p with
  | Some File =>
      match unlink fs p with
      | Some fs' => put_cwd fs'
      | None => raise (OSError p)
      end
  | Some (Dir _) => raise (IsADirectoryError p)
  | None => raise (FileNotFoundError p)
  end.

(** The listing [os.walk] takes of one directory: the names of its
    sub-directories and of its other entries. *)
Definition dir_names (es : directory) : list string :=
  map fst (filter (fun e => is_dir (snd e)) es).

Definition file_names (es : directory) : list string :=
  map fst (filter (fun e => negb (is_dir (snd e))) es).

Definition scandir (fs : directory) (top : string)
  : option (list string * list string) :=
  match stat fs top with
  | Some (Dir es) => Some (dir_names es, file_names es)
  | _ => None
  end.

(** [for root, dirs, files in os.walk(top): body(root, dirs, files)], top
    down with the default [onerror=None]: a directory that cannot be listed
    is skipped.  Each directory is listed when the walk reaches it, after the
    loop body has run on its parent.  [fuel] bounds the depth of the
    descent. *)
Fixpoint walk (fuel : nat) (top : string)
  (body : string -> list string -> list string -> M unit) : M unit :=
  match fuel with
  | O => raise RecursionError
  | S fuel' =>
      fs <- get_cwd ;;
      match scandir fs top with
      | None => ret tt
      | Some (dirs, files) =>
          body top dirs files ;;
          for_each dirs (fun d => walk fuel' (os_path_join top d) body)
      end
  end.

(** The tree is finite: its height when the walk starts bounds the descent,
    as long as the loop body creates nothing. *)
Definition os_walk (top : string)
  (body : string -> list string -> list string -> M unit) : M unit :=
  fs <- get_cwd ;;
  walk (S (height (Dir fs))) top body.

(** ** [run_clean] *)

(** Lines 67-69: [for item in os.listdir("."): ...append(item)]. *)
Fixpoint add_egg_info (items : list string) (dirs_to_remove : list string)
  : M (list string) :=
  match items with
  | [] => ret dirs_to_remove
  | item :: rest =>
      matches <- (if Str.endswith item ".egg-info" then os_path_isdir item
                  else ret false) ;;
      add_egg_info rest
        (if matches then dirs_to_remove ++ [item] else dirs_to_remove)
  end.

(** Lines 72-77: the body of [for dir_path in dirs_to_remove]. *)
Definition remove_artifact (dir_path : string) : M unit :=
  present <- os_path_exists dir_path ;;
  if present then
    isdir <- os_path_isdir dir_path ;;
    (if isdir then shutil_rmtree dir_path else os_remove dir_path) ;;
    print (String.append "Removed " dir_path)
  else ret tt.

(** Lines 82-85: the body of [for dir_name in dirs]. *)
Definition remove_cache_dir (root dir_name : string) : M unit :=
  if String.eqb dir_name "__pycache__" then
    let cache_dir := os_path_join root dir_name in
    shutil_rmtree cache_dir ;;
    print (String.append "Removed " cache_dir)
  else ret tt.

(** Lines 88-91: the body of [for file_name in files]. *)
Definition remove_pyc (root file_name : string) : M unit :=
  if Str.endswith file_name ".pyc" then
    let pyc_file := os_path_join root file_name in
    os_remove pyc_file ;;
    print (String.append "Removed " pyc_file)
  else ret tt.

(** Lines 81-91: the body of [for root, dirs, files in os.walk(".")]. *)
Definition remove_caches (root : string) (dirs files : list string) : M unit :=
  for_each dirs (remove_cache_dir root) ;;
  for_each files (remove_pyc root).

Definition fixed_artifacts : list string :=
  ["build/"; "dist/"; ".pytest_cache/"; ".mypy_cache/"; "htmlcov/"; ".coverage"].

Definition clean_complete : string := "✅ Clean complete".

(** Lines 57-69: the fixed list, extended by the scan of the current
    directory. *)
Definition artifact_list : M (list string) :=
  items <- os_listdir "." ;;
  add_egg_info items fixed_artifacts.

Definition run_clean (args : option (list string)) : M unit :=
  dirs_to_remove <- artifact_list ;;
  for_each dirs_to_remove remove_artifact ;;
  os_walk "." remove_caches ;;
  print clean_complete.

(** *** What [run_clean] leaves

    The entries the walk removes: a directory named [__pycache__], a file
    whose name ends in [.pyc]. *)
Definition is_cache (e : string * node) : bool :=
  if is_dir (snd e) then String.eqb (fst e) "__pycache__"
  else Str.endswith (fst e) ".pyc".

(** The tree without its cache entries, at every level. *)
Fixpoint purge (n : node) : node :=
  match n with
  | File => File
  | Dir es =>
      Dir (filter (fun e => negb (is_cache e))
                  (map (fun e => let '(k, x) := e in (k, purge x)) es))
  end.

Definition purge_dir (es : directory) : directory :=
  filter (fun e => negb (is_cache e)) (map (fun e => (fst e, purge (snd e))) es).

(** No cache entry at any level. *)
Fixpoint clean (n : node) : bool :=
  match n with
  | File => true
  | Dir es =>
      forallb (fun e => negb (is_cache e) && let '(_, x) := e in clean x) es
  end.

(** Replacing the directory at [cs]. *)
Definition graft (cs : list string) (es' : directory) (fs : directory) : directory :=
  alter cs (fun _ => es') fs.

(** [top] is the path of the components [cs] as [os.walk] builds it from
    ["."]. *)
Definition is_path (top : string) (cs : list string) : Prop :=
  Str.split "/" top = "." :: cs /\ Forall (fun c => valid_name c = true) cs.

(** ** External processes and the commands that launch them *)

Section Commands.

(** What launching a command does: its exit status and the file tree it
    leaves, which may depend on everything that happened before.  Every
    command is taken to start.  A launch that does not start is outside the
    model: [subprocess.run] raises [FileNotFoundError] on an executable that
    cannot be found and [ValueError] on an argument that holds a NUL,
    whatever [check] is.  What is stated of a command that returns, or of a
    [CalledProcessError], does not depend on it. *)
Variable exec : list string -> world -> Z * directory.

(** [subprocess.run(cmd, check=check)] *)
Definition subprocess_run (cmd : list string) (check : bool) : M unit :=
  fun w =>
    let (returncode, fs') := exec cmd w in
    let w' := {| cwd := fs'; out := out w ++ [Run cmd returncode] |} in
    if check && negb (Z.eqb returncode 0)
    then (Raise (CalledProcessError returncode cmd), w')
    else (Ok tt, w').

Definition autoflake_cmd : list string :=
  ["autoflake"; "--recursive"; "--remove-all-unused-imports";
   "--remove-unused-variables"; "--in-place"; "stonkwise"; "tests"].

Definition black_cmd : list string := ["black"; "stonkwise"; "tests"].

Definition isort_cmd : list string := ["isort"; "stonkwise"; "tests"].

Definition flake8_cmd : list string := ["flake8"; "stonkwise"; "tests"].

Definition mypy_cmd : list string := ["mypy"; "stonkwise"].

Definition build_cmd : list string := ["poetry"; "build"].

Definition run_format (args : option (list string)) : M unit :=
  print "Removing unused imports with autoflake..." ;;
  subprocess_run autoflake_cmd true ;;
  print "Formatting code with black..." ;;
  subprocess_run black_cmd true ;;
  print "Sorting imports with isort..." ;;
  subprocess_run isort_cmd true ;;
  print "✅ Code formatting complete".

Definition run_lint (args : option (list string)) : M unit :=
  print "Running flake8..." ;;
  subprocess_run flake8_cmd false ;;
  print (String.append nl "Running mypy...") ;;
  subprocess_run mypy_cmd false ;;
  print "✅ Linting complete".




Definition run_verify (args : option (list string)) : M unit :=
  print "🔍 Running pre-build verification..." ;;
  print (String.append nl "📝 Formatting code...") ;;
  run_format args ;;
  print (String.append nl "🔎 Linting code...") ;;
  run_lint args ;;
  print (String.append nl "📦 Building package...") ;;
  subprocess_run build_cmd false ;;
  print (String.append nl "✅ Verification and build complete!").

(** The world after a line is printed, and after a command is launched. *)
Definition say (line : string) (w : world) : world :=
  {| cwd := cwd w; out := out w ++ [Print line] |}.

Definition status (cmd : list string) (w : world) : Z := fst (exec cmd w).

Definition launched (cmd : list string) (w : world) : world :=
  {| cwd := snd (exec cmd w); out := out w ++ [Run cmd (status cmd w)] |}.

End Commands.

(** A path with a single component [c], an entry of the current directory. *)
Definition top_level (p c : string) : Prop :=
  String.eqb p "" = false /\ path_components p = [c].

(** One tree holds no more than another: what a name reaches in [fs'], it
    reaches in [fs], and with the same kind. *)
Definition shrinks (fs' fs : directory) : Prop :=
  forall c y, lookup c fs' = Some y ->
              exists x, lookup c fs = Some x /\ is_dir y = is_dir x.

(** The state in which the first loop of [run_clean] finds nothing: no
    fixed artifact exists and no [*.egg-info] entry is a directory. *)
Definition settled (fs : directory) : Prop :=
  (forall p, In p fixed_artifacts -> stat fs p = None) /\
  (forall item, In item (map fst fs) -> Str.endswith item ".egg-info" = true ->
                isdir_at fs item = false).

(** A tree with artifacts and cache entries at several levels. *)
Definition example_tree : directory :=
  [("build", Dir [("lib", Dir [("a.py", File)])]);
   ("dist", File);
   (".coverage", File);
   ("stonkwise.egg-info", Dir [("PKG-INFO", File)]);
   ("notes.egg-info", File);
   ("stonkwise",
    Dir [("__init__.py", File);
         ("__pycache__", Dir [("__init__.cpython-311.pyc", File)]);
         ("core", Dir [("x.pyc", File); ("x.py", File);
                       ("deep", Dir [("__pycache__", Dir [])])])]);
   ("old.pyc", File);
   ("__pycache__", File)].

(** Tools that all fail, and tools of which only the checkers fail. *)
Definition all_fail (cmd : list string) (w : world) : Z * directory :=
  (1%Z, cwd w).

Definition checkers_fail (cmd : list string) (w : world) : Z * directory :=
  (if existsb (String.eqb (hd "" cmd)) ["flake8"; "mypy"] then 1%Z else 0%Z, cwd w).

(** Tools that all exit zero, and tools of which only the sorter fails. *)
Definition all_pass (cmd : list string) (w : world) : Z * directory :=
  (0%Z, cwd w).

Definition sorter_fails (cmd : list string) (w : world) : Z * directory :=
  (if String.eqb (hd "" cmd) "isort" then 2%Z else 0%Z, cwd w).

(** *** What the first loop of [run_clean] removes

    A path of the list with the single component [c] removes the entry
    named [c]: any entry when the path has no trailing slash, a directory
    only when it has one. *)
Definition hits (p : string) (e : string * node) : bool :=
  match path_components p with
  | [c] => String.eqb (fst e) c && (is_dir (snd e) || negb (Str.endswith p "/"))
  | _ => false
  end.

(** The entries of the current directory that the artifact list names: a
    directory with one of the five fixed names, the entry [.coverage], a
    directory whose name ends in [.egg-info]. *)
Definition is_artifact (e : string * node) : bool :=
  (is_dir (snd e) &&
   existsb (String.eqb (fst e))
           ["build"; "dist"; ".pytest_cache"; ".mypy_cache"; "htmlcov"])
  || String.eqb (fst e) ".coverage"
  || (is_dir (snd e) && Str.endswith (fst e) ".egg-info").

(** The tree without its artifacts and without cache entries. *)
Definition cleaned (fs : directory) : directory :=
  purge_dir (filter (fun e => negb (is_artifact e)) fs).

(** Components that name no artifact at the top and no cache entry at any
    level. *)
Definition spared (cs : list string) : bool :=
  match cs with
  | [] => false
  | c :: _ =>
      negb (existsb (String.eqb c)
                    ["build"; "dist"; ".pytest_cache"; ".mypy_cache"; "htmlcov";
                     ".coverage"]) &&
      negb (Str.endswith c ".egg-info") &&
      forallb (fun d => negb (String.eqb d "__pycache__") &&
                        negb (Str.endswith d ".pyc")) cs
  end.

(** The lines [run_clean] prints. *)
Definition report_line (ev : event) : Prop :=
  ev = Print clean_complete \/ exists p, ev = Print (String.append "Removed " p).

(** A computation that only adds such lines to the trace. *)
Definition reports {A : Type} (m : M A) : Prop :=
  forall w, exists evs, out (snd (m w)) = out w ++ evs /\ Forall report_line evs.

(** * Properties *)

(** ** Strings *)

Lemma prefix_append (p s : string) :
  String.prefix p s = true -> exists v, s = String.append p v.
Proof.
  revert s; induction p as [|c p IH]; intros s H.
  - exists s; reflexivity.
  - destruct s as [|c' s]; simpl in H; [discriminate|].
    destruct (Ascii.ascii_dec c c') as [->|Hc]; [|discriminate].
    destruct (IH s H) as [v ->].
    exists v; reflexivity.
Qed.

Lemma split_before_after (sep : ascii) (s : string) :
  Str.split sep s =
  Str.before sep s ::
  (if Str.contains sep s then Str.split sep (Str.after sep s) else []).
Proof.
  induction s as [|c s IH]; simpl; [reflexivity|].
  destruct (Ascii.eqb c sep); simpl; [reflexivity|].
  rewrite IH; reflexivity.
Qed.

Lemma before_no_sep (sep : ascii) (s : string) :
  Str.contains sep s = false -> Str.before sep s = s.
Proof.
  induction s as [|c s IH]; simpl; [reflexivity|].
  destruct (Ascii.eqb c sep); simpl; [discriminate|].
  intros H; rewrite IH by exact H; reflexivity.
Qed.

(** ** The argument parser *)

Lemma flag_token_split (k : flag) (v : string) :
  subscript (Str.split "=" (String.append (flag_prefix k) v)) 1 =
  Ok (Str.before "=" v).
Proof.
  destruct k; cbn -[Str.split subscript];
    cbn [Str.split Ascii.eqb Bool.eqb];
    destruct (Str.split "=" v) eqn:E;
    rewrite split_before_after in E; try discriminate;
    injection E as <- _; reflexivity.
Qed.

Lemma flag_token_after (k : flag) (v : string) :
  Str.after "=" (String.append (flag_prefix k) v) = v.
Proof. destruct k; reflexivity. Qed.

Lemma parse_arg_flag (k : flag) (v : string) (p : params) :
  parse_arg p (String.append (flag_prefix k) v) = Ok (set k (Str.before "=" v) p).
Proof.
  unfold parse_arg.
  pose proof (flag_token_split k v) as H.
  destruct k; cbn [flag_prefix] in *.
  - change (Str.startswith (String.append "--ticker=" v) "--ticker=")
      with (String.prefix "" v).
    replace (String.prefix "" v) with true by (destruct v; reflexivity).
    rewrite H; reflexivity.
  - change (Str.startswith (String.append "--period=" v) "--ticker=") with false.
    change (Str.startswith (String.append "--period=" v) "--period=")
      with (String.prefix "" v).
    replace (String.prefix "" v) with true by (destruct v; reflexivity).
    rewrite H; reflexivity.
  - change (Str.startswith (String.append "--strategy=" v) "--ticker=") with false.
    change (Str.startswith (String.append "--strategy=" v) "--period=") with false.
    change (Str.startswith (String.append "--strategy=" v) "--strategy=")
      with (String.prefix "" v).
    replace (String.prefix "" v) with true by (destruct v; reflexivity).
    rewrite H; reflexivity.
Qed.

Lemma startswith_flag (k : flag) (arg : string) :
  Str.startswith arg (flag_prefix k) = true ->
  exists v, arg = String.append (flag_prefix k) v.
Proof. apply prefix_append. Qed.

Lemma recognized_flag (arg : string) :
  recognized arg = true ->
  exists k v, arg = String.append (flag_prefix k) v.
Proof.
  unfold recognized; intros H.
  apply orb_true_iff in H; destruct H as [H|H];
    [apply orb_true_iff in H; destruct H as [H|H]|].
  - destruct (startswith_flag Ticker arg H) as [v ->]; exists Ticker, v; reflexivity.
  - destruct (startswith_flag Period arg H) as [v ->]; exists Period, v; reflexivity.
  - destruct (startswith_flag Strategy arg H) as [v ->]; exists Strategy, v; reflexivity.
Qed.

Lemma parse_arg_unrecognized (p : params) (arg : string) :
  recognized arg = false -> parse_arg p arg = Ok p.
Proof.
  unfold recognized, parse_arg; intros H.
  apply orb_false_iff in H; destruct H as [H H3].
  apply orb_false_iff in H; destruct H as [H1 H2].
  rewrite H1, H2, H3; reflexivity.
Qed.

Lemma parse_arg_total (p : params) (arg : string) :
  parse_arg p arg = Ok (arg_effect p arg).
Proof.
  unfold arg_effect.
  destruct (recognized arg) eqn:R.
  - destruct (recognized_flag arg R) as (k & v & ->).
    rewrite parse_arg_flag; reflexivity.
  - rewrite parse_arg_unrecognized by exact R; reflexivity.
Qed.

Lemma parse_args_fold (args : list string) (p : params) :
  parse_args p args = Ok (fold_left arg_effect args p).
Proof.
  revert p; induction args as [|a args IH]; intros p; simpl; [reflexivity|].
  rewrite parse_arg_total; apply IH.
Qed.

Lemma example_params_fold (args : list string) :
  example_params (Some args) = Ok (fold_left arg_effect args defaults).
Proof.
  destruct args as [|a args]; [reflexivity|].
  unfold example_params; cbn [truthy].
  apply parse_args_fold.
Qed.

Lemma arg_effect_flag (k : flag) (v : string) (p : params) :
  arg_effect p (String.append (flag_prefix k) v) = set k (Str.before "=" v) p.
Proof. unfold arg_effect; rewrite parse_arg_flag; reflexivity. Qed.

Lemma arg_effect_unrecognized (p : params) (arg : string) :
  recognized arg = false -> arg_effect p arg = p.
Proof.
  intros H; unfold arg_effect; rewrite parse_arg_unrecognized by exact H.
  reflexivity.
Qed.

(** A token that does not start with the prefix of [k] leaves [k] alone. *)
Lemma arg_effect_other (k : flag) (p : params) (arg : string) :
  Str.startswith arg (flag_prefix k) = false ->
  get k (arg_effect p arg) = get k p.
Proof.
  intros H.
  destruct (recognized arg) eqn:R.
  - destruct (recognized_flag arg R) as (k' & v & ->).
    rewrite arg_effect_flag.
    destruct k, k'; try reflexivity;
      exfalso; revert H; unfold Str.startswith; cbn;
      destruct v; discriminate.
  - rewrite arg_effect_unrecognized by exact R; reflexivity.
Qed.

Lemma fold_effect_other (k : flag) (args : list string) (p : params) :
  (forall t, In t args -> Str.startswith t (flag_prefix k) = false) ->
  get k (fold_left arg_effect args p) = get k p.
Proof.
  revert p; induction args as [|a args IH]; intros p H; simpl; [reflexivity|].
  rewrite IH by (intros t Ht; apply H; right; exact Ht).
  apply arg_effect_other, H; left; reflexivity.
Qed.

Lemma get_set (k : flag) (v : string) (p : params) : get k (set k v p) = v.
Proof. destruct k; reflexivity. Qed.

(** What line 106 (and 108, 110) computes on a token made of a flag prefix
    and a text [v]: the part of [v] before its next ['='], which is all of
    [v] only when [v] holds no ['=']. *)
Lemma flag_value_up_to_next_equals (k : flag) (v : string) (p : params) :
  parse_arg p (String.append (flag_prefix k) v) =
    Ok (set k (Str.before "=" (Str.after "=" (String.append (flag_prefix k) v))) p)
  /\ (Str.contains "=" v = false ->
      parse_arg p (String.append (flag_prefix k) v) = Ok (set k v p)).
Proof.
  rewrite flag_token_after, parse_arg_flag; split; [reflexivity|].
  intros H; rewrite before_no_sep by exact H; reflexivity.
Qed.

(** C1.  The code falls short of the claim on a value that holds an
    ['=']: for [--ticker=A=B] the text after the first ['='] is [A=B], and
    the parser resolves the ticker to [A].  [split("=")] is called without
    a limit, so [[1]] is only the segment up to the next ['=']. *)
Lemma value_with_equals_is_cut :
  exists p, example_params (Some ["--ticker=A=B"]) = Ok p /\
            ticker p = "A" /\
            Str.after "=" "--ticker=A=B" = "A=B" /\
            ticker p <> Str.after "=" "--ticker=A=B".
Proof.
  eexists; split; [reflexivity|].
  repeat split; discriminate.
Qed.

(** C5.  A token without one of the three prefixes, wherever it stands in
    the sequence, leaves the resolved parameters as they are without it, and
    the parser raises no error. *)
Theorem unrecognized_token_ignored (pre post : list string) (tok : string) :
  recognized tok = false ->
  example_params (Some (pre ++ tok :: post)) = example_params (Some (pre ++ post))
  /\ exists p, example_params (Some (pre ++ tok :: post)) = Ok p.
Proof.
  intros H; rewrite !example_params_fold; split; [|eexists; reflexivity].
  rewrite !fold_left_app; cbn [fold_left].
  rewrite arg_effect_unrecognized by exact H; reflexivity.
Qed.

Lemma unrecognized_token_ignored_witness :
  recognized "--ticker" = false /\
  example_params (Some (["--period=week"] ++ "--ticker" :: ["--ticker=AAPL"])) =
  example_params (Some (["--period=week"] ++ ["--ticker=AAPL"])).
Proof.
  split; [reflexivity|].
  apply (proj1 (unrecognized_token_ignored ["--period=week"] ["--ticker=AAPL"]
                  "--ticker" eq_refl)).
Defined.

(** C6.  When a flag occurs several times the last occurrence decides: if
    no token after [tok] carries the prefix of [k], the resolved [k] is the
    value [tok] has on its own, whatever came before. *)
Theorem last_occurrence_wins (k : flag) (pre post : list string) (v : string) :
  (forall t, In t post -> Str.startswith t (flag_prefix k) = false) ->
  exists p p1,
    example_params (Some (pre ++ String.append (flag_prefix k) v :: post)) = Ok p /\
    example_params (Some [String.append (flag_prefix k) v]) = Ok p1 /\
    get k p = get k p1 /\
    get k p = Str.before "=" v /\
    example_params (Some ["--ticker=AAPL"; "--ticker=GOOG"]) =
      Ok {| ticker := "GOOG"; period := "day"; strategy := "simple" |}.
Proof.
  intros H; rewrite !example_params_fold.
  do 2 eexists; split; [reflexivity|]; split; [reflexivity|].
  rewrite fold_left_app; cbn [fold_left].
  rewrite fold_effect_other by exact H.
  rewrite !arg_effect_flag, !get_set.
  repeat split.
Qed.

Lemma last_occurrence_wins_witness :
  exists p, example_params
              (Some (["--ticker=AAPL"] ++ String.append (flag_prefix Ticker) "GOOG"
                       :: ["--period=week"])) = Ok p /\
            get Ticker p = "GOOG".
Proof.
  destruct (@last_occurrence_wins Ticker ["--ticker=AAPL"] ["--period=week"] "GOOG")
    as (p & p1 & H1 & _ & _ & H2 & _).
  - intros t [<-|[]]; reflexivity.
  - exists p; split; [exact H1 | exact H2].
Defined.

(** C7.  A parameter that no token sets keeps its default; without tokens
    the parameters are [MSFT], [day], [simple]; and
    [--ticker=AAPL --period=week] gives [AAPL], [week], [simple]. *)
Theorem unset_parameter_keeps_default (k : flag) (args : list string) :
  (forall t, In t args -> Str.startswith t (flag_prefix k) = false) ->
  (exists p, example_params (Some args) = Ok p /\ get k p = get k defaults) /\
  example_params None = Ok {| ticker := "MSFT"; period := "day"; strategy := "simple" |} /\
  example_params (Some []) = Ok {| ticker := "MSFT"; period := "day"; strategy := "simple" |} /\
  example_params (Some ["--ticker=AAPL"; "--period=week"]) =
    Ok {| ticker := "AAPL"; period := "week"; strategy := "simple" |}.
Proof.
  intros H; split; [|repeat split].
  rewrite example_params_fold; eexists; split; [reflexivity|].
  apply fold_effect_other, H.
Qed.

Lemma unset_parameter_keeps_default_witness :
  exists p, example_params (Some ["--ticker=AAPL"; "--period=week"]) = Ok p /\
            get Strategy p = "simple".
Proof.
  refine (proj1 (@unset_parameter_keeps_default Strategy
                   ["--ticker=AAPL"; "--period=week"] _)).
  intros t [<-|[<-|[]]]; reflexivity.
Defined.

(** C10.  On a token with one of the three prefixes the split on ['=']
    has at least two segments, so [split("=")[1]] is in range and the turn of
    the loop raises nothing; a token that stops at the ['='] sets the
    parameter to the empty string. *)
Theorem value_extraction_total (arg : string) (p : params) :
  recognized arg = true ->
  2 <= length (Str.split "=" arg) /\
  (exists v, subscript (Str.split "=" arg) 1 = Ok v) /\
  (exists p', parse_arg p arg = Ok p') /\
  (forall k, parse_arg p (flag_prefix k) = Ok (set k "" p)).
Proof.
  intros R; destruct (recognized_flag arg R) as (k & v & ->).
  pose proof (flag_token_split k v) as H.
  split; [|split; [|split]].
  - unfold subscript in H.
    destruct (Str.split "=" (String.append (flag_prefix k) v)) as [|a [|b l]];
      simpl in *; try discriminate; lia.
  - eexists; exact H.
  - eexists; apply parse_arg_flag.
  - intros k'; destruct k'; reflexivity.
Qed.

Lemma value_extraction_total_witness :
  recognized "--ticker=" = true /\
  parse_arg defaults "--ticker=" = Ok (set Ticker "" defaults).
Proof.
  split; [reflexivity|].
  apply (proj2 (proj2 (proj2 (@value_extraction_total "--ticker=" defaults eq_refl)))
           Ticker).
Defined.

(** ** Launching external tools *)

Lemma launches_app (a b : list event) :
  launches (a ++ b) = launches a ++ launches b.
Proof.
  induction a as [|[line|cmd rc] a IH]; simpl; [reflexivity| |]; rewrite IH;
    reflexivity.
Qed.

Section CommandFacts.

Variable exec : list string -> world -> Z * directory.

Lemma print_say (line : string) (w : world) :
  print line w = (Ok tt, say line w).
Proof. reflexivity. Qed.

Lemma subprocess_run_unchecked (cmd : list string) (w : world) :
  subprocess_run exec cmd false w = (Ok tt, launched exec cmd w).
Proof.
  unfold subprocess_run, launched, status.
  destruct (exec cmd w); reflexivity.
Qed.

Lemma subprocess_run_checked (cmd : list string) (w : world) :
  subprocess_run exec cmd true w =
  (if Z.eqb (status exec cmd w) 0 then Ok tt
   else Raise (CalledProcessError (status exec cmd w) cmd),
   launched exec cmd w).
Proof.
  unfold subprocess_run, launched, status.
  destruct (exec cmd w) as [rc fs]; simpl.
  destruct (Z.eqb rc 0); reflexivity.
Qed.

Lemma launches_say (line : string) (w : world) :
  launches (out (say line w)) = launches (out w).
Proof. simpl; rewrite launches_app, app_nil_r; reflexivity. Qed.

Lemma launches_launched (cmd : list string) (w : world) :
  launches (out (launched exec cmd w)) = launches (out w) ++ [cmd].
Proof. simpl; rewrite launches_app; reflexivity. Qed.

(** The trace of [run_lint]. *)
Lemma run_lint_trace (args : option (list string)) (w : world) :
  run_lint exec args w =
  (Ok tt,
   say "✅ Linting complete"
       (launched exec mypy_cmd
          (say (String.append nl "Running mypy...")
               (launched exec flake8_cmd (say "Running flake8..." w))))).
Proof.
  unfold run_lint, bind.
  rewrite print_say, subprocess_run_unchecked, print_say,
    subprocess_run_unchecked, print_say.
  reflexivity.
Qed.

(** [run_format] launches an initial part of its three tools and nothing
    else. *)
Lemma run_format_launches (args : option (list string)) (w : world) :
  exists cmds,
    launches (out (snd (run_format exec args w))) = launches (out w) ++ cmds /\
    incl cmds [autoflake_cmd; black_cmd; isort_cmd].
Proof.
  unfold run_format, bind.
  rewrite print_say, subprocess_run_checked.
  destruct (Z.eqb _ 0);
    [rewrite print_say, subprocess_run_checked;
     destruct (Z.eqb _ 0);
     [rewrite print_say, subprocess_run_checked;
      destruct (Z.eqb _ 0); [rewrite print_say|]|]|];
    cbn [snd];
    repeat (rewrite launches_say || rewrite launches_launched);
    rewrite <- ?app_assoc; cbn [app];
    eexists; (split; [reflexivity|]);
    intros c Hc; simpl in *; tauto.
Qed.

End CommandFacts.

Section CommandClaims.

Variable exec : list string -> world -> Z * directory.

(** C3.  [run_format] is fail-fast.  When the unused-import remover exits
    non-zero, [run_format] raises at once and has launched nothing but it;
    when the remover exits zero and the formatter exits non-zero,
    [run_format] raises and the import sorter is not launched. *)
Theorem run_format_fail_fast (args : option (list string)) (w : world) :
  let w1 := say "Removing unused imports with autoflake..." w in
  let rc1 := status exec autoflake_cmd w1 in
  let w2 := say "Formatting code with black..." (launched exec autoflake_cmd w1) in
  let rc2 := status exec black_cmd w2 in
  (rc1 <> 0%Z ->
   run_format exec args w =
     (Raise (CalledProcessError rc1 autoflake_cmd), launched exec autoflake_cmd w1) /\
   launches (out (launched exec autoflake_cmd w1)) =
     launches (out w) ++ [autoflake_cmd]) /\
  (rc1 = 0%Z -> rc2 <> 0%Z ->
   run_format exec args w =
     (Raise (CalledProcessError rc2 black_cmd), launched exec black_cmd w2) /\
   launches (out (launched exec black_cmd w2)) =
     launches (out w) ++ [autoflake_cmd; black_cmd]).
Proof.
  intros w1 rc1 w2 rc2; split.
  - intros H1; apply Z.eqb_neq in H1.
    split.
    + unfold run_format, bind.
      rewrite print_say, subprocess_run_checked.
      fold w1; fold rc1; rewrite H1; reflexivity.
    + unfold w1; rewrite launches_launched, launches_say; reflexivity.
  - intros H1 H2; apply Z.eqb_eq in H1; apply Z.eqb_neq in H2.
    split.
    + unfold run_format, bind.
      rewrite print_say, subprocess_run_checked.
      fold w1; fold rc1; rewrite H1.
      rewrite print_say, subprocess_run_checked.
      fold w2; fold rc2; rewrite H2; reflexivity.
    + unfold w2, w1.
      rewrite launches_launched, launches_say, launches_launched, launches_say,
        <- app_assoc; reflexivity.
Qed.

(** C8.  [run_lint] launches the style checker and then the type checker
    on every run, whatever either exits with, and returns normally. *)
Theorem run_lint_runs_both (args : option (list string)) (w : world) :
  let w1 := say "Running flake8..." w in
  let rc1 := status exec flake8_cmd w1 in
  let w2 := say (String.append nl "Running mypy...") (launched exec flake8_cmd w1) in
  let rc2 := status exec mypy_cmd w2 in
  let w3 := say "✅ Linting complete" (launched exec mypy_cmd w2) in
  run_lint exec args w = (Ok tt, w3) /\
  out w3 = out w ++ [Print "Running flake8..."; Run flake8_cmd rc1;
                     Print (String.append nl "Running mypy...");
                     Run mypy_cmd rc2; Print "✅ Linting complete"] /\
  launches (out w3) = launches (out w) ++ [flake8_cmd; mypy_cmd].
Proof.
  intros w1 rc1 w2 rc2 w3.
  assert (Hout : out w3 =
                 out w ++ [Print "Running flake8..."; Run flake8_cmd rc1;
                           Print (String.append nl "Running mypy...");
                           Run mypy_cmd rc2; Print "✅ Linting complete"]).
  { unfold w3, w2, w1, rc2, rc1, w2, w1; simpl.
    rewrite <- !app_assoc; reflexivity. }
  split; [|split; [exact Hout|]].
  - apply run_lint_trace.
  - rewrite Hout, launches_app; reflexivity.
Qed.

(** C2.  In [run_verify], when the format phase raises, the lint checkers
    and the package builder are not launched; when it returns, the two
    checkers and then the builder are launched and [run_verify] returns,
    whatever the checkers exit with. *)
Theorem run_verify_gated_by_format (args : option (list string)) (w : world) :
  let w0 := say (String.append nl "📝 Formatting code...")
                (say "🔍 Running pre-build verification..." w) in
  (forall e w1,
      run_format exec args w0 = (Raise e, w1) ->
      run_verify exec args w = (Raise e, w1) /\
      exists cmds,
        launches (out w1) = launches (out w) ++ cmds /\
        ~ In flake8_cmd cmds /\ ~ In mypy_cmd cmds /\ ~ In build_cmd cmds) /\
  (forall w1,
      run_format exec args w0 = (Ok tt, w1) ->
      exists w2,
        run_verify exec args w = (Ok tt, w2) /\
        launches (out w2) = launches (out w1) ++ [flake8_cmd; mypy_cmd; build_cmd]).
Proof.
  intros w0; split.
  - intros e w1 H; split.
    + unfold run_verify, bind; rewrite !print_say.
      fold w0; rewrite H; reflexivity.
    + destruct (run_format_launches exec args w0) as (cmds & Hc & Hi).
      rewrite H in Hc; cbn [snd] in Hc.
      unfold w0 in Hc; rewrite !launches_say in Hc.
      exists cmds; split; [exact Hc|].
      repeat split; intros Hin; apply Hi in Hin;
        simpl in Hin; intuition discriminate.
  - intros w1 H.
    unfold run_verify, bind; rewrite !print_say.
    fold w0; rewrite H.
    rewrite print_say.
    rewrite run_lint_trace, print_say, subprocess_run_unchecked, print_say.
    eexists; split; [reflexivity|].
    repeat (rewrite launches_say || rewrite launches_launched).
    rewrite <- !app_assoc; reflexivity.
Qed.

End CommandClaims.

Lemma run_format_fail_fast_witness :
  (exists e w', run_format all_fail None (World [] []) = (Raise e, w') /\
                launches (out w') = [autoflake_cmd]) /\
  (exists e w',
      run_format (fun cmd w => (if String.eqb (hd "" cmd) "black" then 1%Z else 0%Z, cwd w))
                 None (World [] []) = (Raise e, w') /\
      launches (out w') = [autoflake_cmd; black_cmd]).
Proof.
  split.
  - destruct (proj1 (run_format_fail_fast all_fail None (World [] [])))
      as [H1 H2]; [discriminate|].
    do 2 eexists; split; [exact H1 | exact H2].
  - destruct (proj2 (run_format_fail_fast
                       (fun cmd w => (if String.eqb (hd "" cmd) "black" then 1%Z else 0%Z, cwd w))
                       None (World [] [])))
      as [H1 H2]; [reflexivity | discriminate |].
    do 2 eexists; split; [exact H1 | exact H2].
Defined.

Lemma run_verify_gated_by_format_witness :
  (exists e w1, run_verify all_fail None (World [] []) = (Raise e, w1) /\
                ~ In build_cmd (launches (out w1))) /\
  (exists w2, run_verify checkers_fail None (World [] []) = (Ok tt, w2) /\
              launches (out w2) =
                [autoflake_cmd; black_cmd; isort_cmd; flake8_cmd; mypy_cmd; build_cmd]).
Proof.
  split.
  - destruct (proj1 (run_verify_gated_by_format all_fail None (World [] []))
                _ _ eq_refl) as (H1 & cmds & H2 & _ & _ & H3).
    do 2 eexists; split; [exact H1|].
    rewrite H2; exact H3.
  - destruct (proj2 (run_verify_gated_by_format checkers_fail None (World [] []))
                _ eq_refl) as (w2 & H1 & H2).
    exists w2; split; [exact H1 | exact H2].
Defined.

(** ** Paths *)

Lemma split_no_sep (sep : ascii) (s : string) :
  Str.contains sep s = false -> Str.split sep s = [s].
Proof.
  intros H; rewrite split_before_after, H, before_no_sep by exact H.
  reflexivity.
Qed.

Lemma split_append (sep : ascii) (a b : string) :
  Str.split sep (String.append a (String sep b)) =
  Str.split sep a ++ Str.split sep b.
Proof.
  induction a as [|c a IH]; simpl.
  - rewrite Ascii.eqb_refl; reflexivity.
  - destruct (Ascii.eqb c sep); [rewrite IH; reflexivity|].
    rewrite IH.
    destruct (Str.split sep a) as [|seg segs] eqn:E; [|reflexivity].
    rewrite split_before_after in E; discriminate.
Qed.

Lemma endswith_sep_split (sep : ascii) (s : string) :
  Str.endswith s (String sep EmptyString) = true ->
  In EmptyString (tl (Str.split sep s)).
Proof.
  induction s as [|c s IH]; [discriminate|].
  cbn [Str.endswith]; intros H.
  apply orb_true_iff in H; destruct H as [H|H].
  - apply String.eqb_eq in H; injection H as -> ->.
    simpl; rewrite Ascii.eqb_refl; left; reflexivity.
  - specialize (IH H); cbn [Str.split].
    destruct (Ascii.eqb c sep).
    + cbn [tl]; destruct (Str.split sep s); [destruct IH | right; exact IH].
    + destruct (Str.split sep s); [destruct IH | exact IH].
Qed.

Lemma endswith_no_sep (sep : ascii) (s : string) :
  Str.contains sep s = false ->
  Str.endswith s (String sep EmptyString) = false.
Proof.
  intros H.
  destruct (Str.endswith s (String sep EmptyString)) eqn:E; [|reflexivity].
  apply endswith_sep_split in E.
  rewrite split_no_sep in E by exact H; destruct E.
Qed.

(** What [valid_name] gives. *)
Lemma valid_name_inv (d : string) :
  valid_name d = true ->
  d <> "" /\ d <> "." /\ Str.contains "/" d = false.
Proof.
  unfold valid_name; intros H.
  repeat (apply andb_true_iff in H; destruct H as [H ?]).
  repeat match goal with
         | X : negb _ = true |- _ => apply negb_true_iff in X
         end.
  repeat split; try (apply String.eqb_neq; assumption); assumption.
Qed.

Lemma components_of_valid (cs : list string) :
  Forall (fun c => valid_name c = true) cs ->
  filter (fun c => negb (String.eqb c "") && negb (String.eqb c ".")) cs = cs.
Proof.
  induction 1 as [|c cs Hc _ IH]; simpl; [reflexivity|].
  destruct (@valid_name_inv _ Hc) as (H1 & H2 & _).
  apply String.eqb_neq in H1, H2; rewrite H1, H2, IH; reflexivity.
Qed.

Lemma is_path_root : is_path "." [].
Proof. split; [reflexivity | constructor]. Qed.

Lemma is_path_facts (top : string) (cs : list string) :
  is_path top cs ->
  path_components top = cs /\ String.eqb top "" = false /\
  Str.endswith top "/" = false.
Proof.
  intros [Hs Hv]; split; [|split].
  - unfold path_components; rewrite Hs; cbn [filter]; simpl.
    apply components_of_valid, Hv.
  - destruct top; [discriminate | reflexivity].
  - destruct (Str.endswith top "/") eqn:E; [|reflexivity].
    apply endswith_sep_split in E; rewrite Hs in E; cbn [tl] in E.
    rewrite Forall_forall in Hv; specialize (Hv _ E); discriminate.
Qed.

Lemma is_path_join (top : string) (cs : list string) (d : string) :
  is_path top cs -> valid_name d = true ->
  is_path (os_path_join top d) (cs ++ [d]).
Proof.
  intros Hp Hd.
  destruct (@is_path_facts _ _ Hp) as (_ & Hne & He).
  destruct Hp as [Hs Hv].
  destruct (@valid_name_inv _ Hd) as (Hd1 & _ & Hd3).
  unfold os_path_join.
  assert (Str.startswith d "/" = false) as ->.
  { destruct d as [|c d]; [reflexivity|].
    unfold Str.startswith; cbn [String.prefix Str.contains] in *.
    apply orb_false_iff in Hd3; destruct Hd3 as [Hc _].
    destruct (Ascii.ascii_dec "/" c) as [<-|]; [discriminate Hc | reflexivity]. }
  rewrite Hne, He; cbn [orb].
  split.
  - change (String.append "/" d) with (String "/" d).
    rewrite split_append, Hs, split_no_sep by exact Hd3; reflexivity.
  - apply Forall_app; split; [exact Hv | repeat constructor; exact Hd].
Qed.

Lemma stat_path (fs : directory) (top : string) (cs : list string) :
  is_path top cs -> stat fs top = find cs (Dir fs).
Proof.
  intros Hp; destruct (@is_path_facts _ _ Hp) as (Hc & Hne & He).
  unfold stat; rewrite Hne, Hc, He.
  destruct (find cs (Dir fs)) as [[|]|]; reflexivity.
Qed.

Lemma unlink_path (fs : directory) (top : string) (cs : list string) (d : string) :
  is_path top (cs ++ [d]) -> unlink fs top = Some (alter cs (delete d) fs).
Proof.
  intros Hp; destruct (@is_path_facts _ _ Hp) as (Hc & _).
  unfold unlink, split_last; rewrite Hc, rev_app_distr; cbn [rev app].
  rewrite rev_involutive; reflexivity.
Qed.

(** ** Directories as association lists *)

Lemma distinct_NoDup (l : list string) : distinct l = true <-> NoDup l.
Proof.
  induction l as [|x l IH]; simpl.
  - split; [constructor | reflexivity].
  - rewrite andb_true_iff, negb_true_iff, IH; split.
    + intros [Hx Hl]; constructor; [|exact Hl].
      intros Hin.
      assert (existsb (String.eqb x) l = true) as E
        by (apply existsb_exists; exists x; split; [exact Hin | apply String.eqb_refl]).
      congruence.
    + intros H; inversion H as [|? ? Hx Hl]; subst; split; [|exact Hl].
      destruct (existsb (String.eqb x) l) eqn:E; [|reflexivity].
      apply existsb_exists in E; destruct E as (y & Hy & Exy).
      apply String.eqb_eq in Exy; subst y; contradiction.
Qed.

Lemma wf_node_dir (es : directory) :
  wf_node (Dir es) = true <->
  NoDup (map fst es) /\
  (forall k x, In (k, x) es -> valid_name k = true /\ wf_node x = true).
Proof.
  cbn [wf_node]; rewrite !andb_true_iff, distinct_NoDup, !forallb_forall.
  split.
  - intros [[Hn Hv] Hw]; split; [exact Hn|].
    intros k x Hin; split.
    + apply Hv; change k with (fst (k, x)); apply in_map, Hin.
    + apply (Hw _ Hin).
  - intros [Hn H]; split; [split; [exact Hn|]|].
    + intros k Hk; apply in_map_iff in Hk; destruct Hk as ([k' x] & <- & Hin).
      apply (H _ _ Hin).
    + intros [k x] Hin; apply (H _ _ Hin).
Qed.

Lemma lookup_In (k : string) (es : directory) (x : node) :
  lookup k es = Some x -> In (k, x) es.
Proof.
  induction es as [|[k' y] es IH]; simpl; [discriminate|].
  destruct (String.eqb_spec k' k) as [->|Hne].
  - intros [= ->]; left; reflexivity.
  - intros H; right; apply IH, H.
Qed.

Lemma lookup_None (k : string) (es : directory) :
  lookup k es = None <-> ~ In k (map fst es).
Proof.
  induction es as [|[k' y] es IH]; simpl; [tauto|].
  destruct (String.eqb_spec k' k) as [->|Hne].
  - split; [discriminate | intros H; exfalso; apply H; left; reflexivity].
  - rewrite IH; tauto.
Qed.

Lemma In_lookup (k : string) (es : directory) (x : node) :
  NoDup (map fst es) -> In (k, x) es -> lookup k es = Some x.
Proof.
  induction es as [|[k' y] es IH]; simpl; [tauto|].
  intros Hn Hin; inversion Hn as [|? ? Hk Hn']; subst.
  destruct Hin as [[= -> ->]|Hin].
  - rewrite String.eqb_refl; reflexivity.
  - destruct (String.eqb_spec k' k) as [->|Hne]; [|apply IH; assumption].
    exfalso; apply Hk; change k with (fst (k, x)); apply in_map, Hin.
Qed.

Lemma names_filter_incl (g : string * node -> bool) (es : directory) (k : string) :
  In k (map fst (filter g es)) -> In k (map fst es).
Proof.
  intros H; apply in_map_iff in H; destruct H as (e & <- & He).
  apply filter_In in He; apply in_map, He.
Qed.

Lemma NoDup_names_filter (g : string * node -> bool) (es : directory) :
  NoDup (map fst es) -> NoDup (map fst (filter g es)).
Proof.
  induction es as [|e es IH]; simpl; [intros; constructor|].
  intros Hn; inversion Hn as [|? ? Hk Hn']; subst.
  destruct (g e); simpl; [|apply IH, Hn'].
  constructor; [|apply IH, Hn'].
  intros Hin; apply Hk; revert Hin; apply names_filter_incl.
Qed.

Lemma lookup_filter (g : string * node -> bool) (k : string) (es : directory) :
  NoDup (map fst es) ->
  lookup k (filter g es) =
  match lookup k es with
  | Some x => if g (k, x) then Some x else None
  | None => None
  end.
Proof.
  induction es as [|[k' y] es IH]; simpl; [reflexivity|].
  intros Hn; inversion Hn as [|? ? Hk Hn']; subst.
  destruct (String.eqb_spec k' k) as [->|Hne].
  - destruct (g (k, y)) eqn:G; simpl.
    + rewrite String.eqb_refl; reflexivity.
    + apply lookup_None; intros Hin; apply Hk; revert Hin; apply names_filter_incl.
  - destruct (g (k', y)); simpl; [|apply IH, Hn'].
    destruct (String.eqb_spec k' k); [contradiction | apply IH, Hn'].
Qed.

Lemma lookup_delete_other (k k' : string) (es : directory) :
  k <> k' -> lookup k' (delete k es) = lookup k' es.
Proof.
  intros Hne; induction es as [|[c y] es IH]; simpl; [reflexivity|].
  destruct (String.eqb_spec c k) as [->|Hc]; simpl.
  - destruct (String.eqb_spec k k'); [contradiction | exact IH].
  - rewrite IH; reflexivity.
Qed.

Lemma names_update (c : string) (f : node -> node) (es : directory) :
  map fst (update c f es) = map fst es.
Proof.
  induction es as [|[k x] es IH]; simpl; [reflexivity|].
  destruct (String.eqb k c); simpl; [|rewrite IH]; reflexivity.
Qed.

Lemma lookup_update_same (c : string) (f : node -> node) (es : directory) :
  lookup c (update c f es) = option_map f (lookup c es).
Proof.
  induction es as [|[k x] es IH]; simpl; [reflexivity|].
  destruct (String.eqb k c) eqn:E; simpl; rewrite E; [reflexivity | exact IH].
Qed.

Lemma lookup_update_other (c c' : string) (f : node -> node) (es : directory) :
  c <> c' -> lookup c' (update c f es) = lookup c' es.
Proof.
  intros Hne; induction es as [|[k x] es IH]; simpl; [reflexivity|].
  destruct (String.eqb_spec k c) as [->|Hk]; simpl.
  - destruct (String.eqb_spec c c'); [contradiction | reflexivity].
  - rewrite IH; reflexivity.
Qed.

Lemma update_ext_at (c : string) (f g : node -> node) (es : directory) :
  (forall x, lookup c es = Some x -> f x = g x) ->
  update c f es = update c g es.
Proof.
  induction es as [|[k x] es IH]; simpl; [reflexivity|].
  destruct (String.eqb k c); intros H.
  - rewrite (H x eq_refl); reflexivity.
  - rewrite IH by exact H; reflexivity.
Qed.

Lemma update_update (c : string) (f g : node -> node) (es : directory) :
  update c g (update c f es) = update c (fun x => g (f x)) es.
Proof.
  induction es as [|[k x] es IH]; simpl; [reflexivity|].
  destruct (String.eqb k c) eqn:E; simpl; rewrite E; [|rewrite IH]; reflexivity.
Qed.

(** With distinct names, [update] is a map over the entries. *)
Lemma update_as_map (c : string) (f : node -> node) (es : directory) :
  NoDup (map fst es) ->
  update c f es =
  map (fun e => if String.eqb (fst e) c then (fst e, f (snd e)) else e) es.
Proof.
  induction es as [|[k x] es IH]; simpl; [reflexivity|].
  intros Hn; inversion Hn as [|? ? Hk Hn']; subst.
  destruct (String.eqb_spec k c) as [->|Hne].
  - f_equal. symmetry; rewrite <- (map_id es) at 2.
    apply map_ext_in; intros [k' y] Hin; simpl.
    destruct (String.eqb_spec k' c) as [->|]; [|reflexivity].
    exfalso; apply Hk; change c with (fst (c, y)); apply in_map, Hin.
  - rewrite IH by exact Hn'; reflexivity.
Qed.

(** ** Reaching into the tree *)

Lemma find_file (p : list string) (es : directory) :
  find p File = Some (Dir es) -> False.
Proof. destruct p; discriminate. Qed.

Lemma find_snoc (cs : list string) (d : string) (n : node) (es : directory) :
  find cs n = Some (Dir es) -> find (cs ++ [d]) n = lookup d es.
Proof.
  revert n; induction cs as [|c cs IH]; intros n; simpl.
  - intros [= ->]; destruct (lookup d es); reflexivity.
  - destruct n as [|fs]; [discriminate|].
    destruct (lookup c fs) as [x|]; [apply IH | discriminate].
Qed.

Lemma alter_ext_at (cs : list string) (f g : directory -> directory)
  (fs es : directory) :
  find cs (Dir fs) = Some (Dir es) -> f es = g es ->
  alter cs f fs = alter cs g fs.
Proof.
  revert fs; induction cs as [|c cs IH]; intros fs; simpl.
  - intros [= ->]; tauto.
  - intros Hf Hfg; apply update_ext_at; intros x Hx.
    rewrite Hx in Hf.
    destruct x as [|fs']; [exfalso; eapply find_file, Hf|].
    simpl; f_equal; apply IH; assumption.
Qed.

Lemma alter_alter (cs : list string) (f g : directory -> directory)
  (fs : directory) :
  alter cs g (alter cs f fs) = alter cs (fun es => g (f es)) fs.
Proof.
  revert fs; induction cs as [|c cs IH]; intros fs; simpl; [reflexivity|].
  rewrite update_update; apply update_ext_at; intros [|fs'] _; simpl;
    [reflexivity | rewrite IH; reflexivity].
Qed.

Lemma find_alter (cs : list string) (f : directory -> directory)
  (fs es : directory) :
  find cs (Dir fs) = Some (Dir es) ->
  find cs (Dir (alter cs f fs)) = Some (Dir (f es)).
Proof.
  revert fs; induction cs as [|c cs IH]; intros fs; simpl.
  - intros [= ->]; reflexivity.
  - rewrite lookup_update_same.
    destruct (lookup c fs) as [[|fs']|]; simpl; try discriminate.
    + intros H; exfalso; eapply find_file, H.
    + apply IH.
Qed.

Lemma alter_snoc (cs : list string) (d : string) (f : directory -> directory)
  (fs : directory) :
  alter (cs ++ [d]) f fs = alter cs (update d (on_dir f)) fs.
Proof.
  revert fs; induction cs as [|c cs IH]; intros fs; simpl; [reflexivity|].
  apply update_ext_at; intros [|fs'] _; simpl; [reflexivity|].
  rewrite IH; reflexivity.
Qed.

Lemma alter_graft (cs : list string) (f : directory -> directory)
  (fs es : directory) :
  find cs (Dir fs) = Some (Dir es) -> alter cs f fs = graft cs (f es) fs.
Proof. intros H; apply alter_ext_at with (es := es); [exact H | reflexivity]. Qed.

Lemma graft_graft (cs : list string) (a b fs : directory) :
  graft cs b (graft cs a fs) = graft cs b fs.
Proof. unfold graft; rewrite alter_alter; reflexivity. Qed.

Lemma find_graft (cs : list string) (a fs es : directory) :
  find cs (Dir fs) = Some (Dir es) ->
  find cs (Dir (graft cs a fs)) = Some (Dir a).
Proof. apply find_alter. Qed.

Lemma graft_same (cs : list string) (fs es : directory) :
  find cs (Dir fs) = Some (Dir es) -> graft cs es fs = fs.
Proof.
  unfold graft; revert fs; induction cs as [|c cs IH]; intros fs; simpl.
  - intros [= ->]; reflexivity.
  - intros H. destruct (lookup c fs) as [x|] eqn:L; [|discriminate].
    destruct x as [|fs']; [exfalso; eapply find_file, H|].
    clear - L H IH. revert L; induction fs as [|[k y] fs IHfs]; simpl; [reflexivity|].
    destruct (String.eqb k c).
    + intros [= ->]; simpl; rewrite IH by exact H; reflexivity.
    + intros L; rewrite IHfs by exact L; reflexivity.
Qed.

(** ** The file-system calls on walk paths *)

Lemma bind_ok {A B : Type} (m : M A) (k : A -> M B) (w w' : world) (a : A) :
  m w = (Ok a, w') -> bind m k w = k a w'.
Proof. unfold bind; intros ->; reflexivity. Qed.

Lemma for_each_app {A : Type} (a b : list A) (body : A -> M unit) (w : world) :
  for_each (a ++ b) body w = (for_each a body ;; for_each b body) w.
Proof.
  revert w; induction a as [|x a IH]; intros w; simpl.
  - reflexivity.
  - unfold bind.
    destruct (body x w) as [[[]|e] w1]; [|reflexivity].
    rewrite IH; reflexivity.
Qed.

Lemma for_each_skip {A : Type} (l : list A) (body : A -> M unit) (w : world) :
  (forall x, In x l -> body x w = (Ok tt, w)) ->
  for_each l body w = (Ok tt, w).
Proof.
  induction l as [|x l IH]; intros H; simpl; [reflexivity|].
  rewrite (bind_ok _ _ _ _ _ (H x (or_introl eq_refl))).
  apply IH; intros y Hy; apply H; right; exact Hy.
Qed.

Lemma rmtree_path (top : string) (cs : list string) (d : string)
  (fs es sub : directory) (log : list event) :
  is_path top (cs ++ [d]) ->
  find cs (Dir fs) = Some (Dir es) ->
  lookup d es = Some (Dir sub) ->
  shutil_rmtree top (World fs log) = (Ok tt, World (graft cs (delete d es) fs) log).
Proof.
  intros Hp Hf Hl.
  unfold shutil_rmtree, bind, get_cwd; cbn [cwd].
  rewrite (stat_path fs _ _ Hp), (find_snoc _ d _ _ Hf), Hl, (unlink_path fs _ _ _ Hp).
  unfold put_cwd; cbn [cwd out].
  rewrite (alter_graft _ (delete d) _ _ Hf); reflexivity.
Qed.

Lemma remove_path (top : string) (cs : list string) (d : string)
  (fs es : directory) (log : list event) :
  is_path top (cs ++ [d]) ->
  find cs (Dir fs) = Some (Dir es) ->
  lookup d es = Some File ->
  os_remove top (World fs log) = (Ok tt, World (graft cs (delete d es) fs) log).
Proof.
  intros Hp Hf Hl.
  unfold os_remove, bind, get_cwd; cbn [cwd].
  rewrite (stat_path fs _ _ Hp), (find_snoc _ d _ _ Hf), Hl, (unlink_path fs _ _ _ Hp).
  unfold put_cwd; cbn [cwd out].
  rewrite (alter_graft _ (delete d) _ _ Hf); reflexivity.
Qed.

Lemma scandir_path (top : string) (cs : list string) (fs : directory) :
  is_path top cs ->
  scandir fs top =
  match find cs (Dir fs) with
  | Some (Dir es) => Some (dir_names es, file_names es)
  | _ => None
  end.
Proof. intros Hp; unfold scandir; rewrite (stat_path fs _ _ Hp); reflexivity. Qed.

(** ** The loop body of the walk *)

Lemma filter_filter {A : Type} (f g : A -> bool) (l : list A) :
  filter g (filter f l) = filter (fun x => f x && g x) l.
Proof.
  induction l as [|x l IH]; simpl; [reflexivity|].
  destruct (f x); simpl; [destruct (g x)|]; rewrite IH; reflexivity.
Qed.

Lemma filter_all {A : Type} (f : A -> bool) (l : list A) :
  (forall x, In x l -> f x = true) -> filter f l = l.
Proof.
  induction l as [|x l IH]; intros H; simpl; [reflexivity|].
  rewrite (H x (or_introl eq_refl)), IH; [reflexivity|].
  intros y Hy; apply H; right; exact Hy.
Qed.

Lemma remove_cache_dirs_none (top : string) (ds : list string) (w : world) :
  ~ In "__pycache__" ds ->
  for_each ds (remove_cache_dir top) w = (Ok tt, w).
Proof.
  intros H; apply for_each_skip; intros d Hd.
  unfold remove_cache_dir.
  destruct (String.eqb_spec d "__pycache__") as [->|]; [contradiction | reflexivity].
Qed.

Lemma remove_pycs_none (top : string) (fl : list string) (w : world) :
  (forall f, In f fl -> Str.endswith f ".pyc" = false) ->
  for_each fl (remove_pyc top) w = (Ok tt, w).
Proof.
  intros H; apply for_each_skip; intros f Hf.
  unfold remove_pyc; rewrite (H f Hf); reflexivity.
Qed.

Lemma in_dir_names (d : string) (es : directory) :
  In d (dir_names es) <-> exists sub, In (d, Dir sub) es.
Proof.
  unfold dir_names; rewrite in_map_iff; split.
  - intros ([k [|sub]] & <- & Hin); apply filter_In in Hin; destruct Hin as [Hin Hd];
      [discriminate | exists sub; exact Hin].
  - intros [sub Hin]; exists (d, Dir sub); split; [reflexivity|].
    apply filter_In; split; [exact Hin | reflexivity].
Qed.

Lemma in_file_names (f : string) (es : directory) :
  In f (file_names es) <-> In (f, File) es.
Proof.
  unfold file_names; rewrite in_map_iff; split.
  - intros ([k [|sub]] & <- & Hin); apply filter_In in Hin; destruct Hin as [Hin Hd];
      [exact Hin | discriminate].
  - intros Hin; exists (f, File); split; [reflexivity|].
    apply filter_In; split; [exact Hin | reflexivity].
Qed.

(** The first loop of the body removes the [__pycache__] directory, if the
    directory has one. *)
Lemma remove_cache_dirs_spec (top : string) (cs : list string)
  (fs es : directory) (log : list event) :
  is_path top cs ->
  find cs (Dir fs) = Some (Dir es) ->
  NoDup (map fst es) ->
  exists log',
    for_each (dir_names es) (remove_cache_dir top) (World fs log) =
    (Ok tt,
     World (graft cs (filter (fun e => negb (is_dir (snd e) && String.eqb (fst e) "__pycache__")) es) fs)
           log').
Proof.
  intros Hp Hf Hn.
  destruct (in_dec string_dec "__pycache__" (dir_names es)) as [Hin|Hout].
  - assert (Hnd : NoDup (dir_names es)) by (apply NoDup_names_filter, Hn).
    destruct (in_split _ _ Hin) as (l1 & l2 & E).
    rewrite E in Hnd |- *.
    apply NoDup_remove_2 in Hnd.
    apply in_dir_names in Hin; destruct Hin as [sub Hsub].
    pose proof (In_lookup _ _ _ Hn Hsub) as Hl.
    rewrite for_each_app.
    rewrite (bind_ok _ _ _ _ _ (remove_cache_dirs_none top l1 (World fs log)
                            (fun H => Hnd (in_or_app _ _ _ (or_introl H))))).
    cbn [for_each].
    assert (Hp' : is_path (os_path_join top "__pycache__") (cs ++ ["__pycache__"]))
      by (apply is_path_join; [exact Hp | reflexivity]).
    unfold remove_cache_dir at 1; cbn [String.eqb Ascii.eqb Bool.eqb].
    unfold bind at 1 2.
    rewrite (rmtree_path _ _ _ _ _ _ log Hp' Hf Hl).
    unfold print at 1; cbn [cwd out].
    rewrite remove_cache_dirs_none
      by (intros H; apply Hnd, in_or_app; right; exact H).
    eexists; f_equal; f_equal; f_equal.
    unfold delete; apply filter_ext_in; intros [k x] Hkx; cbn [fst snd].
    destruct (String.eqb_spec k "__pycache__") as [->|]; [|rewrite andb_false_r; reflexivity].
    rewrite (In_lookup _ _ _ Hn Hkx) in Hl; injection Hl as ->; reflexivity.
  - rewrite remove_cache_dirs_none by exact Hout.
    exists log; f_equal; f_equal.
    rewrite filter_all; [symmetry; apply graft_same, Hf|].
    intros [k [|sub]] Hkx; cbn [fst snd is_dir andb negb]; [reflexivity|].
    destruct (String.eqb_spec k "__pycache__") as [->|]; [|reflexivity].
    exfalso; apply Hout, in_dir_names; exists sub; exact Hkx.
Qed.

(** The second loop of the body removes the files named [*.pyc]. *)
Lemma remove_pycs_spec (top : string) (cs : list string) (fl : list string) :
  is_path top cs ->
  NoDup fl ->
  (forall f, In f fl -> valid_name f = true) ->
  forall (fs es : directory) (log : list event),
    find cs (Dir fs) = Some (Dir es) ->
    (forall f, In f fl -> lookup f es = Some File) ->
    exists log',
      for_each fl (remove_pyc top) (World fs log) =
      (Ok tt,
       World (graft cs (filter (fun e => negb (existsb (String.eqb (fst e)) fl &&
                                               Str.endswith (fst e) ".pyc")) es) fs)
             log').
Proof.
  intros Hp; induction fl as [|f fl IH]; intros Hnd Hv fs es log Hf Hl.
  - exists log; cbn [for_each ret existsb andb negb].
    rewrite filter_all by reflexivity.
    rewrite (graft_same _ _ _ Hf); reflexivity.
  - inversion Hnd as [|? ? Hnotin Hnd']; subst.
    assert (Hv' : forall g, In g fl -> valid_name g = true)
      by (intros g Hg; apply Hv; right; exact Hg).
    cbn [for_each]; unfold remove_pyc at 1.
    destruct (Str.endswith f ".pyc") eqn:Epyc.
    + assert (Hp' : is_path (os_path_join top f) (cs ++ [f]))
        by (apply is_path_join; [exact Hp | apply Hv; left; reflexivity]).
      unfold bind at 1 2.
      rewrite (remove_path _ _ _ _ _ log Hp' Hf (Hl f (or_introl eq_refl))).
      unfold print at 1; cbn [cwd out].
      destruct (IH Hnd' Hv' (graft cs (delete f es) fs) (delete f es)
                  (log ++ [Print (String.append "Removed " (os_path_join top f))]))
        as [log' E].
      * apply (find_graft _ _ _ _ Hf).
      * intros g Hg; rewrite lookup_delete_other;
          [apply Hl; right; exact Hg | intros ->; contradiction].
      * exists log'; rewrite E, graft_graft; f_equal; f_equal; f_equal.
        unfold delete; rewrite filter_filter.
        apply filter_ext; intros [k x]; cbn [fst snd existsb].
        destruct (String.eqb_spec k f) as [->|Hne].
        -- rewrite Epyc; reflexivity.
        -- reflexivity.
    + unfold bind at 1, ret at 1.
      destruct (IH Hnd' Hv' fs es log Hf (fun g Hg => Hl g (or_intror Hg)))
        as [log' E].
      exists log'; rewrite E; f_equal; f_equal; f_equal.
      apply filter_ext; intros [k x]; cbn [fst snd existsb].
      destruct (String.eqb_spec k f) as [->|Hne]; [|reflexivity].
      rewrite Epyc, !andb_false_r; reflexivity.
Qed.

(** Both loops together leave the entries that are not cache entries. *)
Lemma remove_caches_spec (top : string) (cs : list string)
  (fs es : directory) (log : list event) :
  is_path top cs ->
  find cs (Dir fs) = Some (Dir es) ->
  wf_node (Dir es) = true ->
  exists log',
    remove_caches top (dir_names es) (file_names es) (World fs log) =
    (Ok tt, World (graft cs (filter (fun e => negb (is_cache e)) es) fs) log').
Proof.
  intros Hp Hf Hw; apply wf_node_dir in Hw; destruct Hw as [Hn Hw].
  unfold remove_caches.
  destruct (remove_cache_dirs_spec top cs fs es log Hp Hf Hn) as [log1 E1].
  rewrite (bind_ok _ _ _ _ _ E1).
  set (es1 := filter (fun e => negb (is_dir (snd e) && String.eqb (fst e) "__pycache__")) es) in *.
  assert (Hfiles : forall f, In f (file_names es) -> In (f, File) es1).
  { intros f Hin; apply in_file_names in Hin.
    apply filter_In; split; [exact Hin | reflexivity]. }
  destruct (remove_pycs_spec top cs (file_names es) Hp) with
    (fs := graft cs es1 fs) (es := es1) (log := log1) as [log2 E2].
  - apply NoDup_names_filter, Hn.
  - intros f Hin; apply in_file_names in Hin; apply (Hw _ _ Hin).
  - apply (find_graft _ _ _ _ Hf).
  - intros f Hin; apply In_lookup; [apply NoDup_names_filter, Hn | apply Hfiles, Hin].
  - exists log2; rewrite E2, graft_graft; f_equal; f_equal; f_equal.
    unfold es1; rewrite filter_filter.
    apply filter_ext_in; intros [k x] Hkx; cbn [fst snd]; unfold is_cache; cbn [fst snd].
    destruct x as [|sub]; cbn [is_dir andb negb].
    + assert (existsb (String.eqb k) (file_names es) = true) as ->; [|reflexivity].
      apply existsb_exists; exists k; split; [|apply String.eqb_refl].
      apply in_file_names, Hkx.
    + assert (existsb (String.eqb k) (file_names es) = false) as ->;
        [|rewrite andb_true_r; reflexivity].
      destruct (existsb (String.eqb k) (file_names es)) eqn:E; [|reflexivity].
      apply existsb_exists in E; destruct E as (k' & Hk' & Ek).
      apply String.eqb_eq in Ek; subst k'.
      apply in_file_names in Hk'.
      pose proof (In_lookup _ _ _ Hn Hk') as L1.
      pose proof (In_lookup _ _ _ Hn Hkx) as L2; congruence.
Qed.

(** ** The walk *)

Lemma height_child (k : string) (x : node) (es : directory) :
  In (k, x) es -> height x < height (Dir es).
Proof.
  intros Hin; cbn [height]; apply Nat.lt_succ_r.
  pose proof (proj1 (list_max_le (map (fun e => let '(_, c) := e in height c) es) _)
                (Nat.le_refl _)) as H.
  rewrite Forall_forall in H; apply H.
  apply in_map_iff; exists (k, x); split; [reflexivity | exact Hin].
Qed.

Lemma height_dir_pos (es : directory) : 1 <= height (Dir es).
Proof. cbn [height]; lia. Qed.

Lemma purge_dir_eq (es : directory) : purge (Dir es) = Dir (purge_dir es).
Proof.
  cbn [purge]; unfold purge_dir; do 2 f_equal.
  apply map_ext; intros [k x]; reflexivity.
Qed.

Lemma is_dir_purge (x : node) : is_dir (purge x) = is_dir x.
Proof. destruct x; reflexivity. Qed.

Lemma purge_dir_as_map (es : directory) :
  purge_dir es =
  map (fun e => (fst e, purge (snd e))) (filter (fun e => negb (is_cache e)) es).
Proof.
  unfold purge_dir; induction es as [|[k x] es IH]; [reflexivity|].
  cbn [map filter fst snd].
  assert (is_cache (k, purge x) = is_cache (k, x)) as ->
      by (unfold is_cache; cbn [fst snd]; rewrite is_dir_purge; reflexivity).
  destruct (is_cache (k, x)); cbn [negb map fst snd]; rewrite IH; reflexivity.
Qed.

(** The descent into the sub-directories, given the walk for less fuel. *)
Lemma descend_spec (k : nat) (top : string) (cs : list string) :
  (forall top cs fs es log,
      is_path top cs -> find cs (Dir fs) = Some (Dir es) ->
      wf_node (Dir es) = true -> height (Dir es) <= k ->
      exists log',
        walk k top remove_caches (World fs log) =
        (Ok tt, World (graft cs (purge_dir es) fs) log')) ->
  is_path top cs ->
  forall ds : list string,
    NoDup ds ->
    (forall d, In d ds -> valid_name d = true) ->
    forall (fs es : directory) (log : list event),
      find cs (Dir fs) = Some (Dir es) ->
      NoDup (map fst es) ->
      (forall d, In d ds ->
                 match lookup d es with
                 | None => 1 <= k
                 | Some File => False
                 | Some (Dir sub) => wf_node (Dir sub) = true /\ height (Dir sub) <= k
                 end) ->
      exists log',
        for_each ds (fun d => walk k (os_path_join top d) remove_caches) (World fs log) =
        (Ok tt,
         World (graft cs (map (fun e => if existsb (String.eqb (fst e)) ds
                                        then (fst e, purge (snd e)) else e) es) fs)
               log').
Proof.
  intros IHk Hp ds; induction ds as [|d ds IH]; intros Hnd Hv fs es log Hf Hn Hds.
  - exists log; cbn [for_each ret existsb].
    rewrite map_id, (graft_same _ _ _ Hf); reflexivity.
  - inversion Hnd as [|? ? Hnotin Hnd']; subst.
    assert (Hv' : forall g, In g ds -> valid_name g = true)
      by (intros g Hg; apply Hv; right; exact Hg).
    assert (Hp' : is_path (os_path_join top d) (cs ++ [d]))
      by (apply is_path_join; [exact Hp | apply Hv; left; reflexivity]).
    pose proof (Hds d (or_introl eq_refl)) as Hd.
    cbn [for_each].
    destruct (lookup d es) as [[|sub]|] eqn:L; [destruct Hd| |].
    + destruct Hd as [Hw Hh].
      destruct (IHk _ _ fs sub log Hp') as [log1 E1]; [|exact Hw|exact Hh|].
      { rewrite (find_snoc _ d _ _ Hf); exact L. }
      rewrite (bind_ok _ _ _ _ _ E1).
      assert (Eg : graft (cs ++ [d]) (purge_dir sub) fs =
                   graft cs (update d (fun _ => Dir (purge_dir sub)) es) fs).
      { unfold graft at 1; rewrite alter_snoc, (alter_graft _ _ _ _ Hf).
        f_equal; apply update_ext_at; intros x Hx.
        rewrite L in Hx; injection Hx as <-; reflexivity. }
      rewrite Eg.
      destruct (IH Hnd' Hv' (graft cs (update d (fun _ => Dir (purge_dir sub)) es) fs)
                  (update d (fun _ => Dir (purge_dir sub)) es) log1)
        as [log' E].
      * apply (find_graft _ _ _ _ Hf).
      * rewrite names_update; exact Hn.
      * intros g Hg; rewrite lookup_update_other by (intros ->; contradiction).
        apply Hds; right; exact Hg.
      * exists log'; rewrite E, graft_graft; f_equal; f_equal; f_equal.
        rewrite (update_as_map _ _ _ Hn), map_map.
        apply map_ext_in; intros [c x] Hcx; cbn [fst snd existsb].
        destruct (String.eqb_spec c d) as [->|Hne]; cbn [fst snd orb]; [|reflexivity].
        rewrite (In_lookup _ _ _ Hn Hcx) in L; injection L as ->.
        rewrite (purge_dir_eq sub).
        destruct (existsb (String.eqb d) ds) eqn:Ex; [|reflexivity].
        apply existsb_exists in Ex; destruct Ex as (g & Hg & Eg').
        apply String.eqb_eq in Eg'; subst g; contradiction.
    + destruct k as [|k']; [lia|].
      assert (E1 : walk (S k') (os_path_join top d) remove_caches (World fs log) =
                   (Ok tt, World fs log)).
      { cbn [walk]; unfold bind, get_cwd; cbn [cwd].
        unfold scandir; rewrite (stat_path fs _ _ Hp'), (find_snoc _ d _ _ Hf), L.
        reflexivity. }
      rewrite (bind_ok _ _ _ _ _ E1).
      destruct (IH Hnd' Hv' fs es log Hf Hn (fun g Hg => Hds g (or_intror Hg)))
        as [log' E].
      exists log'; rewrite E; f_equal; f_equal; f_equal.
      apply map_ext_in; intros [c x] Hcx; cbn [fst snd existsb].
      destruct (String.eqb_spec c d) as [->|Hne]; [|reflexivity].
      apply lookup_None in L; exfalso; apply L.
      change d with (fst (d, x)); apply in_map, Hcx.
Qed.

(** The walk with enough fuel turns the directory it starts from into its
    purged form and leaves the rest of the tree alone. *)
Lemma walk_purges (fuel : nat) :
  forall (top : string) (cs : list string) (fs es : directory) (log : list event),
    is_path top cs ->
    find cs (Dir fs) = Some (Dir es) ->
    wf_node (Dir es) = true ->
    height (Dir es) <= fuel ->
    exists log',
      walk fuel top remove_caches (World fs log) =
      (Ok tt, World (graft cs (purge_dir es) fs) log').
Proof.
  induction fuel as [|k IHk]; intros top cs fs es log Hp Hf Hw Hh.
  - pose proof (height_dir_pos es); lia.
  - pose proof Hw as Hw0.
    apply wf_node_dir in Hw; destruct Hw as [Hn Hw].
    cbn [walk]; unfold bind at 1, get_cwd at 1; cbn [cwd].
    rewrite (scandir_path _ _ fs Hp), Hf.
    destruct (remove_caches_spec top cs fs es log Hp Hf Hw0) as [log1 E1].
    rewrite (bind_ok _ _ _ _ _ E1).
    set (es1 := filter (fun e => negb (is_cache e)) es) in *.
    destruct (descend_spec k top cs IHk Hp (dir_names es)) with
      (fs := graft cs es1 fs) (es := es1) (log := log1) as [log' E].
    + apply NoDup_names_filter, Hn.
    + intros d Hd; apply in_dir_names in Hd; destruct Hd as [sub Hd].
      apply (Hw _ _ Hd).
    + apply (find_graft _ _ _ _ Hf).
    + apply NoDup_names_filter, Hn.
    + intros d Hd; apply in_dir_names in Hd; destruct Hd as [sub Hd].
      pose proof (height_child _ _ _ Hd) as Hlt.
      pose proof (height_dir_pos sub).
      unfold es1; rewrite (lookup_filter _ _ _ Hn), (In_lookup _ _ _ Hn Hd).
      destruct (negb (is_cache (d, Dir sub))); [|lia].
      split; [apply (Hw _ _ Hd) | lia].
    + exists log'; rewrite E, graft_graft; f_equal; f_equal; f_equal.
      rewrite purge_dir_as_map; fold es1.
      apply map_ext_in; intros [c x] Hcx; cbn [fst snd].
      apply filter_In in Hcx; destruct Hcx as [Hcx _].
      destruct x as [|sub]; [destruct (existsb _ _); reflexivity|].
      assert (existsb (String.eqb c) (dir_names es) = true) as ->; [|reflexivity].
      apply existsb_exists; exists c; split; [|apply String.eqb_refl].
      apply in_dir_names; exists sub; exact Hcx.
Qed.

(** ** The purged tree *)

Lemma node_induction (P : node -> Prop) :
  P File ->
  (forall es, (forall k x, In (k, x) es -> P x) -> P (Dir es)) ->
  forall n, P n.
Proof.
  intros HF HD.
  assert (H : forall h n, height n < h -> P n).
  { induction h as [|h IH]; intros n Hn; [lia|].
    destruct n as [|es]; [exact HF|].
    apply HD; intros k x Hin; apply IH.
    pose proof (height_child _ _ _ Hin); lia. }
  intros n; apply (H (S (height n))); lia.
Qed.

Lemma clean_dir (es : directory) :
  clean (Dir es) = true <->
  forall k x, In (k, x) es -> is_cache (k, x) = false /\ clean x = true.
Proof.
  cbn [clean]; rewrite forallb_forall; split.
  - intros H k x Hin; specialize (H _ Hin).
    apply andb_true_iff in H; destruct H as [H1 H2].
    apply negb_true_iff in H1; split; assumption.
  - intros H [k x] Hin; destruct (H _ _ Hin) as [H1 H2].
    rewrite H1, H2; reflexivity.
Qed.

Lemma in_purge_dir (k : string) (y : node) (es : directory) :
  In (k, y) (purge_dir es) ->
  exists x, In (k, x) es /\ y = purge x /\ is_cache (k, x) = false.
Proof.
  rewrite purge_dir_as_map, in_map_iff.
  intros ([k' x] & [= <- <-] & Hin).
  apply filter_In in Hin; destruct Hin as [Hin Hc].
  apply negb_true_iff in Hc.
  exists x; repeat split; assumption.
Qed.

Lemma names_purge_dir (es : directory) :
  map fst (purge_dir es) = map fst (filter (fun e => negb (is_cache e)) es).
Proof. rewrite purge_dir_as_map, map_map; reflexivity. Qed.

Lemma is_cache_purge (k : string) (x : node) :
  is_cache (k, purge x) = is_cache (k, x).
Proof. unfold is_cache; cbn [fst snd]; rewrite is_dir_purge; reflexivity. Qed.

Lemma wf_purge (n : node) : wf_node n = true -> wf_node (purge n) = true.
Proof.
  induction n as [|es IH] using node_induction; [reflexivity|].
  rewrite purge_dir_eq, !wf_node_dir; intros [Hn Hw]; split.
  - rewrite names_purge_dir; apply NoDup_names_filter, Hn.
  - intros k y Hin; apply in_purge_dir in Hin; destruct Hin as (x & Hx & -> & _).
    destruct (Hw _ _ Hx) as [Hv Hwx]; split; [exact Hv|].
    apply (IH _ _ Hx Hwx).
Qed.

Lemma clean_purge (n : node) : clean (purge n) = true.
Proof.
  induction n as [|es IH] using node_induction; [reflexivity|].
  rewrite purge_dir_eq; apply clean_dir; intros k y Hin.
  apply in_purge_dir in Hin; destruct Hin as (x & Hx & -> & Hc).
  rewrite is_cache_purge; split; [exact Hc | apply (IH _ _ Hx)].
Qed.

Lemma wf_filter (g : string * node -> bool) (es : directory) :
  wf_node (Dir es) = true -> wf_node (Dir (filter g es)) = true.
Proof.
  rewrite !wf_node_dir; intros [Hn Hw]; split.
  - apply NoDup_names_filter, Hn.
  - intros k x Hin; apply filter_In in Hin; apply (Hw _ _ (proj1 Hin)).
Qed.

(** On a tree without cache entries the walk changes nothing and prints
    nothing. *)
Lemma walk_clean_noop (fuel : nat) :
  forall (top : string) (cs : list string) (w : world) (es : directory),
    is_path top cs ->
    find cs (Dir (cwd w)) = Some (Dir es) ->
    wf_node (Dir es) = true ->
    clean (Dir es) = true ->
    height (Dir es) <= fuel ->
    walk fuel top remove_caches w = (Ok tt, w).
Proof.
  induction fuel as [|k IHk]; intros top cs w es Hp Hf Hw Hc Hh.
  - pose proof (height_dir_pos es); lia.
  - apply wf_node_dir in Hw; destruct Hw as [Hn Hw].
    pose proof (proj1 (clean_dir es) Hc) as Hc'.
    cbn [walk]; unfold bind at 1, get_cwd at 1.
    rewrite (scandir_path _ _ _ Hp), Hf.
    assert (E1 : remove_caches top (dir_names es) (file_names es) w = (Ok tt, w)).
    { assert (Hno : ~ In "__pycache__" (dir_names es)).
      { intros Hin; apply in_dir_names in Hin; destruct Hin as [sub Hin].
        destruct (Hc' _ _ Hin) as [Hcache _]; discriminate. }
      unfold remove_caches.
      rewrite (bind_ok _ _ _ _ _ (remove_cache_dirs_none top (dir_names es) w Hno)).
      apply remove_pycs_none; intros f Hin; apply in_file_names in Hin.
      apply (Hc' _ _ Hin). }
    rewrite (bind_ok _ _ _ _ _ E1).
    apply for_each_skip; intros d Hd.
    apply in_dir_names in Hd; destruct Hd as [sub Hd].
    pose proof (height_child _ _ _ Hd).
    apply (IHk _ (cs ++ [d]) w sub).
    + apply is_path_join; [exact Hp | apply (Hw _ _ Hd)].
    + rewrite (find_snoc _ d _ _ Hf); apply In_lookup; assumption.
    + apply (Hw _ _ Hd).
    + apply (Hc' _ _ Hd).
    + lia.
Qed.

(** ** The artifact list and its removal *)

Lemma top_level_fixed (p : string) :
  In p fixed_artifacts -> exists c, top_level p c.
Proof.
  intros H; repeat (destruct H as [<-|H]; [eexists; split; reflexivity|]).
  destruct H.
Qed.

Lemma top_level_name (item : string) :
  valid_name item = true -> top_level item item.
Proof.
  intros Hv; destruct (valid_name_inv _ Hv) as (H1 & H2 & H3).
  split; [apply String.eqb_neq, H1|].
  unfold path_components; rewrite (split_no_sep _ _ H3).
  apply (components_of_valid [item]); repeat constructor; exact Hv.
Qed.

Lemma stat_top_level (fs : directory) (p c : string) :
  top_level p c ->
  stat fs p =
  match lookup c fs with
  | Some File => if Str.endswith p "/" then None else Some File
  | r => r
  end.
Proof.
  intros [Hne Hc]; unfold stat; rewrite Hne, Hc; cbn [find].
  destruct (lookup c fs) as [[|]|]; reflexivity.
Qed.

Lemma stat_name (fs : directory) (item : string) :
  valid_name item = true -> stat fs item = lookup item fs.
Proof.
  intros Hv; rewrite (stat_top_level fs _ _ (top_level_name _ Hv)).
  destruct (valid_name_inv _ Hv) as (_ & _ & H3).
  rewrite (endswith_no_sep _ _ H3).
  destruct (lookup item fs) as [[|]|]; reflexivity.
Qed.

Lemma unlink_top_level (fs : directory) (p c : string) :
  top_level p c -> unlink fs p = Some (delete c fs).
Proof. intros [_ Hc]; unfold unlink; rewrite Hc; reflexivity. Qed.

Lemma remove_artifact_absent (p : string) (w : world) :
  stat (cwd w) p = None -> remove_artifact p w = (Ok tt, w).
Proof.
  intros H; unfold remove_artifact, os_path_exists, bind, get_cwd, ret, exists_at.
  rewrite H; reflexivity.
Qed.

Lemma remove_artifact_present (p c : string) (fs : directory) (log : list event)
  (x : node) :
  top_level p c -> stat fs p = Some x ->
  remove_artifact p (World fs log) =
  (Ok tt, World (delete c fs) (log ++ [Print (String.append "Removed " p)])).
Proof.
  intros Hp H.
  unfold remove_artifact, os_path_exists, os_path_isdir, shutil_rmtree, os_remove,
    bind, get_cwd, ret, exists_at, isdir_at, put_cwd, print; cbn [cwd out].
  rewrite H; destruct x as [|sub];
    repeat (cbn [is_dir cwd out]; rewrite ?H, ?(unlink_top_level fs _ _ Hp));
    reflexivity.
Qed.

Lemma shrinks_filter (g : string * node -> bool) (fs : directory) :
  NoDup (map fst fs) -> shrinks (filter g fs) fs.
Proof.
  intros Hn c y; rewrite (lookup_filter _ _ _ Hn).
  destruct (lookup c fs) as [x|]; [|discriminate].
  destruct (g (c, x)); [|discriminate].
  intros [= ->]; exists y; split; reflexivity.
Qed.

Lemma lookup_map_values (f : node -> node) (c : string) (fs : directory) :
  lookup c (map (fun e => (fst e, f (snd e))) fs) = option_map f (lookup c fs).
Proof.
  induction fs as [|[k x] fs IH]; simpl; [reflexivity|].
  destruct (String.eqb k c); [reflexivity | exact IH].
Qed.

Lemma shrinks_purge_dir (fs : directory) :
  NoDup (map fst fs) -> shrinks (purge_dir fs) fs.
Proof.
  intros Hn c y; unfold purge_dir.
  rewrite lookup_filter by (rewrite map_map; exact Hn).
  rewrite lookup_map_values.
  destruct (lookup c fs) as [x|]; [|discriminate]; cbn [option_map].
  destruct (negb _); [|discriminate].
  intros [= <-]; exists x; split; [reflexivity | apply is_dir_purge].
Qed.

Lemma shrinks_stat_none (fs' fs : directory) (p c : string) :
  shrinks fs' fs -> top_level p c -> stat fs p = None -> stat fs' p = None.
Proof.
  intros Hs Hp; rewrite !(stat_top_level _ _ _ Hp).
  destruct (lookup c fs') as [y|] eqn:L; [|reflexivity].
  destruct (Hs _ _ L) as (x & -> & Hk).
  destruct x, y; try discriminate; tauto.
Qed.

Lemma shrinks_isdir (fs' fs : directory) (item : string) :
  shrinks fs' fs -> valid_name item = true ->
  isdir_at fs' item = true -> isdir_at fs item = true.
Proof.
  intros Hs Hv; unfold isdir_at; rewrite !(stat_name _ _ Hv).
  destruct (lookup item fs') as [y|] eqn:L; [|discriminate].
  destruct (Hs _ _ L) as (x & -> & Hk); congruence.
Qed.

(** The loop over the artifact list: every path of the list is gone
    afterwards, and nothing else is touched. *)
Lemma remove_artifacts_spec (ps : list string) :
  (forall p, In p ps -> exists c, top_level p c) ->
  forall (fs : directory) (log : list event),
    NoDup (map fst fs) ->
    exists g log',
      for_each ps remove_artifact (World fs log) =
      (Ok tt, World (filter g fs) log') /\
      forall p, In p ps -> stat (filter g fs) p = None.
Proof.
  induction ps as [|p ps IH]; intros Ht fs log Hn.
  - exists (fun _ => true), log; rewrite filter_all by reflexivity.
    split; [reflexivity | intros p []].
  - destruct (Ht p (or_introl eq_refl)) as [c Hp].
    assert (Ht' : forall q, In q ps -> exists c, top_level q c)
      by (intros q Hq; apply Ht; right; exact Hq).
    cbn [for_each].
    destruct (stat fs p) as [x|] eqn:S.
    + rewrite (bind_ok _ _ _ _ _ (remove_artifact_present p c fs log x Hp S)).
      destruct (IH Ht' (delete c fs) (log ++ [Print (String.append "Removed " p)]))
        as (g & log' & E & Hgone); [apply NoDup_names_filter, Hn|].
      unfold delete in *; rewrite filter_filter in *.
      eexists; exists log'; split; [exact E|].
      intros q [<-|Hq]; [|apply Hgone, Hq].
      rewrite (stat_top_level _ _ _ Hp), (lookup_filter _ _ _ Hn).
      destruct (lookup c fs) as [y|]; [|reflexivity].
      cbn [fst]; rewrite String.eqb_refl; reflexivity.
    + rewrite (bind_ok _ _ _ _ _ (remove_artifact_absent p (World fs log) S)).
      destruct (IH Ht' fs log Hn) as (g & log' & E & Hgone).
      exists g, log'; split; [exact E|].
      intros q [<-|Hq]; [|apply Hgone, Hq].
      apply (shrinks_stat_none _ fs _ _ (shrinks_filter g fs Hn) Hp S).
Qed.

(** The scan of lines 67-69 appends the names that end in [.egg-info] and
    are directories, in the order of the listing. *)
Lemma add_egg_info_spec (items acc : list string) (w : world) :
  add_egg_info items acc w =
  (Ok (acc ++ filter (fun item => Str.endswith item ".egg-info" &&
                                  isdir_at (cwd w) item) items), w).
Proof.
  revert acc; induction items as [|item items IH]; intros acc; cbn [add_egg_info filter].
  - unfold ret; rewrite app_nil_r; reflexivity.
  - unfold bind at 1.
    destruct (Str.endswith item ".egg-info"); cbn [andb].
    + unfold os_path_isdir, bind, get_cwd, ret.
      rewrite IH; destruct (isdir_at (cwd w) item); [|reflexivity].
      rewrite <- app_assoc; reflexivity.
    + unfold ret at 1; apply IH.
Qed.

Lemma artifact_list_spec (w : world) :
  artifact_list w =
  (Ok (fixed_artifacts ++
       filter (fun item => Str.endswith item ".egg-info" && isdir_at (cwd w) item)
              (map fst (cwd w))), w).
Proof.
  unfold artifact_list, os_listdir, bind at 1, get_cwd at 1.
  change (stat (cwd w) ".") with (Some (Dir (cwd w))).
  unfold bind, ret; apply add_egg_info_spec.
Qed.

(** ** [run_clean], run once and run again *)

Lemma filter_nothing {A : Type} (f : A -> bool) (l : list A) :
  (forall x, In x l -> f x = false) -> filter f l = [].
Proof.
  induction l as [|x l IH]; intros H; simpl; [reflexivity|].
  rewrite (H x (or_introl eq_refl)); apply IH.
  intros y Hy; apply H; right; exact Hy.
Qed.

Lemma names_shrink (fs' fs : directory) (c : string) :
  shrinks fs' fs -> In c (map fst fs') -> In c (map fst fs).
Proof.
  intros Hs Hin.
  destruct (lookup c fs') as [y|] eqn:L.
  - destruct (Hs _ _ L) as (x & Lx & _).
    apply lookup_In in Lx; change c with (fst (c, x)); apply in_map, Lx.
  - apply lookup_None in L; contradiction.
Qed.

Lemma run_clean_settles (args : option (list string)) (fs : directory)
  (log : list event) :
  wf fs = true ->
  exists fs1 log1,
    run_clean args (World fs log) = (Ok tt, World fs1 log1) /\
    wf fs1 = true /\ clean (Dir fs1) = true /\ settled fs1.
Proof.
  intros Hwf; pose proof Hwf as Hwf0.
  apply wf_node_dir in Hwf; destruct Hwf as [Hn Hw].
  unfold run_clean.
  rewrite (bind_ok _ _ _ _ _ (artifact_list_spec (World fs log))); cbn [cwd].
  set (eggs := filter (fun item => Str.endswith item ".egg-info" && isdir_at fs item)
                      (map fst fs)).
  assert (Hvalid : forall item, In item (map fst fs) -> valid_name item = true).
  { intros item Hin; apply in_map_iff in Hin; destruct Hin as ([k x] & <- & Hin).
    apply (Hw _ _ Hin). }
  destruct (remove_artifacts_spec (fixed_artifacts ++ eggs)) with (fs := fs) (log := log)
    as (g & log1 & E1 & Hgone); [|exact Hn|].
  { intros p Hp; apply in_app_or in Hp; destruct Hp as [Hp|Hp].
    - apply top_level_fixed, Hp.
    - exists p; apply top_level_name, Hvalid.
      apply filter_In in Hp; apply Hp. }
  rewrite (bind_ok _ _ _ _ _ E1).
  set (fs1 := filter g fs) in *.
  assert (Hwf1 : wf_node (Dir fs1) = true) by (apply wf_filter, Hwf0).
  destruct (walk_purges (S (height (Dir fs1))) "." [] fs1 fs1 log1 is_path_root
              eq_refl Hwf1 (Nat.le_succ_diag_r _)) as [log2 E2].
  change (walk _ _ _ _) with (os_walk "." remove_caches (World fs1 log1)) in E2.
  rewrite (bind_ok _ _ _ _ _ E2).
  unfold graft; cbn [alter].
  exists (purge_dir fs1), (log2 ++ [Print clean_complete]).
  pose proof (shrinks_filter g fs Hn) as Hs1.
  assert (Hn1 : NoDup (map fst fs1)) by (apply NoDup_names_filter, Hn).
  pose proof (shrinks_purge_dir fs1 Hn1) as Hs2.
  split; [reflexivity|]; split; [|split; [|split]].
  - unfold wf; rewrite <- purge_dir_eq; apply wf_purge, Hwf1.
  - rewrite <- purge_dir_eq; apply clean_purge.
  - intros p Hp; destruct (top_level_fixed p Hp) as [c Hc].
    apply (shrinks_stat_none _ fs1 _ _ Hs2 Hc).
    apply Hgone, in_or_app; left; exact Hp.
  - intros item Hin Hegg.
    assert (Hin0 : In item (map fst fs))
      by (apply (names_shrink _ _ _ Hs1), (names_shrink _ _ _ Hs2), Hin).
    pose proof (Hvalid _ Hin0) as Hv.
    destruct (isdir_at (purge_dir fs1) item) eqn:D; [|reflexivity].
    apply (shrinks_isdir _ _ _ Hs2 Hv) in D.
    pose proof (shrinks_isdir _ _ _ Hs1 Hv D) as D0.
    assert (Hgone' : stat fs1 item = None).
    { apply Hgone, in_or_app; right; apply filter_In; split; [exact Hin0|].
      rewrite Hegg, D0; reflexivity. }
    unfold isdir_at in D; rewrite Hgone' in D; discriminate.
Qed.

Lemma run_clean_on_settled (args : option (list string)) (fs : directory)
  (log : list event) :
  wf fs = true -> clean (Dir fs) = true -> settled fs ->
  run_clean args (World fs log) =
  (Ok tt, World fs (log ++ [Print clean_complete])).
Proof.
  intros Hwf Hc [Hfixed Heggs].
  unfold run_clean.
  rewrite (bind_ok _ _ _ _ _ (artifact_list_spec (World fs log))); cbn [cwd].
  rewrite filter_nothing, app_nil_r.
  - assert (E1 : for_each fixed_artifacts remove_artifact (World fs log) =
                 (Ok tt, World fs log)).
    { apply for_each_skip; intros p Hp.
      apply remove_artifact_absent, Hfixed, Hp. }
    rewrite (bind_ok _ _ _ _ _ E1).
    pose proof (walk_clean_noop (S (height (Dir fs))) "." [] (World fs log) fs
                  is_path_root eq_refl Hwf Hc (Nat.le_succ_diag_r _)) as E2.
    change (walk _ _ _ _) with (os_walk "." remove_caches (World fs log)) in E2.
    rewrite (bind_ok _ _ _ _ _ E2).
    reflexivity.
  - intros item Hin.
    destruct (Str.endswith item ".egg-info") eqn:E; [|reflexivity].
    rewrite (Heggs item Hin E); reflexivity.
Qed.

(** C9.  [run_clean] is idempotent.  On every well-formed tree the first
    run returns normally; a second run right after it returns normally too,
    leaves the tree as the first run left it, and reports no removal: all it
    prints is the closing line.  In particular a path of the list that does
    not exist is passed over: its turn of the loop changes nothing, prints
    nothing and raises nothing. *)
Theorem run_clean_idempotent (args : option (list string)) (fs : directory)
  (log : list event) :
  wf fs = true ->
  (exists fs1 log1,
      run_clean args (World fs log) = (Ok tt, World fs1 log1) /\
      run_clean args (World fs1 log1) =
        (Ok tt, World fs1 (log1 ++ [Print clean_complete]))) /\
  (forall p w, exists_at (cwd w) p = false -> remove_artifact p w = (Ok tt, w)).
Proof.
  intros Hwf; split.
  - destruct (run_clean_settles args fs log Hwf) as (fs1 & log1 & E & Hwf1 & Hc & Hs).
    exists fs1, log1; split; [exact E|].
    apply run_clean_on_settled; assumption.
  - intros p w H; apply remove_artifact_absent.
    unfold exists_at in H; destruct (stat (cwd w) p); [discriminate | reflexivity].
Qed.

(** C4, as amended.  The list of paths to remove is the fixed list followed
    by the immediate children of the current directory whose name ends in
    [.egg-info] and which are directories; a file with such a name is not
    added. *)
Theorem egg_info_directories_added (fs : directory) (log : list event) :
  wf fs = true ->
  exists added,
    artifact_list (World fs log) = (Ok (fixed_artifacts ++ added), World fs log) /\
    forall item,
      In item added <->
      (exists sub, In (item, Dir sub) fs) /\ Str.endswith item ".egg-info" = true.
Proof.
  intros Hwf; apply wf_node_dir in Hwf; destruct Hwf as [Hn Hw].
  eexists; split; [apply artifact_list_spec|]; cbn [cwd].
  intros item; rewrite filter_In, andb_true_iff, in_map_iff; split.
  - intros (([k x] & <- & Hin) & Hegg & Hdir); cbn [fst] in *.
    split; [|exact Hegg].
    unfold isdir_at in Hdir.
    rewrite (stat_name _ _ (proj1 (Hw _ _ Hin))), (In_lookup _ _ _ Hn Hin) in Hdir.
    destruct x as [|sub]; [discriminate | exists sub; exact Hin].
  - intros ([sub Hin] & Hegg); split; [|split; [exact Hegg|]].
    + exists (item, Dir sub); split; [reflexivity | exact Hin].
    + unfold isdir_at.
      rewrite (stat_name _ _ (proj1 (Hw _ _ Hin))), (In_lookup _ _ _ Hn Hin).
      reflexivity.
Qed.

Lemma egg_info_directories_added_witness :
  wf example_tree = true /\
  exists added,
    artifact_list (World example_tree []) =
      (Ok (fixed_artifacts ++ added), World example_tree []) /\
    In "stonkwise.egg-info" added /\ ~ In "notes.egg-info" added.
Proof.
  split; [reflexivity|].
  destruct (egg_info_directories_added example_tree [] eq_refl) as (added & E & H).
  exists added; split; [exact E|]; split.
  - apply H; split; [|reflexivity].
    exists [("PKG-INFO", File)]; simpl; tauto.
  - intros Hin; apply H in Hin; destruct Hin as [[sub Hin] _].
    simpl in Hin; repeat (destruct Hin as [Hin|Hin]; [discriminate Hin|]).
    exact Hin.
Defined.

(** C4, as stated, fails: a file named [notes.egg-info] is an immediate
    child whose name ends with the suffix, and it is not added to the list. *)
Lemma egg_info_file_not_added :
  In "notes.egg-info" (map fst [("notes.egg-info", File)]) /\
  Str.endswith "notes.egg-info" ".egg-info" = true /\
  exists l,
    artifact_list (World [("notes.egg-info", File)] []) =
      (Ok l, World [("notes.egg-info", File)] []) /\
    ~ In "notes.egg-info" l.
Proof.
  split; [left; reflexivity|]; split; [reflexivity|].
  eexists; split; [reflexivity|].
  simpl; intros H; repeat (destruct H as [H|H]; [discriminate H|]); exact H.
Qed.

Lemma run_clean_idempotent_witness :
  wf example_tree = true /\
  exists fs1 log1,
    run_clean None (World example_tree []) = (Ok tt, World fs1 log1) /\
    run_clean None (World fs1 log1) =
      (Ok tt, World fs1 (log1 ++ [Print clean_complete])).
Proof.
  split; [reflexivity|].
  exact (proj1 (run_clean_idempotent None example_tree [] eq_refl)).
Defined.

(** ** More on the commands that launch tools *)

Section CommandOutcomes.

Variable exec : list string -> world -> Z * directory.

(** How [run_format] ends once its tools start: normally, with the three
    tools launched and each exiting zero; or with the [CalledProcessError]
    of the tool launched last. *)
Lemma run_format_cases (args : option (list string)) (w w' : world)
  (r : result unit) :
  run_format exec args w = (r, w') ->
  (r = Ok tt /\
   out w' = out w ++ [Print "Removing unused imports with autoflake...";
                      Run autoflake_cmd 0;
                      Print "Formatting code with black...";
                      Run black_cmd 0;
                      Print "Sorting imports with isort...";
                      Run isort_cmd 0;
                      Print "✅ Code formatting complete"]) \/
  (exists rc cmd evs,
      r = Raise (CalledProcessError rc cmd) /\ rc <> 0%Z /\
      In cmd [autoflake_cmd; black_cmd; isort_cmd] /\
      out w' = out w ++ evs ++ [Run cmd rc] /\
      ~ In (Print "✅ Code formatting complete") evs).
Proof.
  unfold run_format, bind.
  rewrite print_say, subprocess_run_checked.
  destruct (Z.eqb_spec (status exec autoflake_cmd
                          (say "Removing unused imports with autoflake..." w)) 0)
    as [E1|E1].
  - rewrite print_say, subprocess_run_checked.
    destruct (Z.eqb_spec
                (status exec black_cmd
                   (say "Formatting code with black..."
                      (launched exec autoflake_cmd
                         (say "Removing unused imports with autoflake..." w)))) 0)
      as [E2|E2].
    + rewrite print_say, subprocess_run_checked.
      destruct (Z.eqb_spec
                  (status exec isort_cmd
                     (say "Sorting imports with isort..."
                        (launched exec black_cmd
                           (say "Formatting code with black..."
                              (launched exec autoflake_cmd
                                 (say "Removing unused imports with autoflake..." w)))))) 0)
        as [E3|E3].
      * rewrite print_say; intros [= <- <-]; left; split; [reflexivity|].
        cbn [out say launched]; rewrite E1, E2, E3, <- !app_assoc; reflexivity.
      * intros [= <- <-]; right.
        eexists _, isort_cmd,
          [Print "Removing unused imports with autoflake..."; Run autoflake_cmd 0;
           Print "Formatting code with black..."; Run black_cmd 0;
           Print "Sorting imports with isort..."].
        split; [reflexivity|]; split; [exact E3|]; split; [simpl; tauto|]; split.
        -- cbn [out say launched]; rewrite E1, E2, <- !app_assoc; reflexivity.
        -- simpl; intuition discriminate.
    + intros [= <- <-]; right.
      eexists _, black_cmd,
        [Print "Removing unused imports with autoflake..."; Run autoflake_cmd 0;
         Print "Formatting code with black..."].
      split; [reflexivity|]; split; [exact E2|]; split; [simpl; tauto|]; split.
      * cbn [out say launched]; rewrite E1, <- !app_assoc; reflexivity.
      * simpl; intuition discriminate.
  - intros [= <- <-]; right.
    eexists _, autoflake_cmd, [Print "Removing unused imports with autoflake..."].
    split; [reflexivity|]; split; [exact E1|]; split; [simpl; tauto|]; split.
    + cbn [out say launched]; rewrite <- ?app_assoc; reflexivity.
    + simpl; intuition discriminate.
Qed.



(** X3.  When [run_format] returns normally, it has launched the remover,
    the formatter and the sorter in that order, each exited zero, and the
    closing line is printed last. *)
Theorem run_format_success_trace (args : option (list string)) (w w' : world) :
  run_format exec args w = (Ok tt, w') ->
  out w' = out w ++ [Print "Removing unused imports with autoflake...";
                     Run autoflake_cmd 0;
                     Print "Formatting code with black...";
                     Run black_cmd 0;
                     Print "Sorting imports with isort...";
                     Run isort_cmd 0;
                     Print "✅ Code formatting complete"].
Proof.
  intros H; apply run_format_cases in H.
  destruct H as [[_ H]|(rc & cmd & evs & H & _)]; [exact H | discriminate].
Qed.

(** X4.  When [run_format] raises a [CalledProcessError], the error names
    one of its three tools and that tool's non-zero exit status, the launch
    of that tool is the last thing that happened, and the closing line was
    not printed. *)
Theorem run_format_called_process_error (args : option (list string))
  (w w' : world) (rc : Z) (cmd : list string) :
  run_format exec args w = (Raise (CalledProcessError rc cmd), w') ->
  rc <> 0%Z /\
  In cmd [autoflake_cmd; black_cmd; isort_cmd] /\
  exists evs,
    out w' = out w ++ evs ++ [Run cmd rc] /\
    ~ In (Print "✅ Code formatting complete") evs.
Proof.
  intros H; apply run_format_cases in H.
  destruct H as [[H _]|(rc' & cmd' & evs & H & Hrc & Hin & Hout & Hno)];
    [discriminate|].
  injection H as -> ->.
  split; [exact Hrc|]; split; [exact Hin|].
  exists evs; split; assumption.
Qed.

(** X5.  A [CalledProcessError] of [run_verify] comes from its format
    phase: it names the remover, the formatter or the sorter with a non-zero
    exit status, and that launch is the last thing that happened.  No exit
    status of the checkers or of the builder raises one. *)
Theorem run_verify_called_process_error (args : option (list string))
  (w w' : world) (rc : Z) (cmd : list string) :
  run_verify exec args w = (Raise (CalledProcessError rc cmd), w') ->
  rc <> 0%Z /\
  In cmd [autoflake_cmd; black_cmd; isort_cmd] /\
  exists evs, out w' = out w ++ evs ++ [Run cmd rc].
Proof.
  unfold run_verify, bind; rewrite !print_say.
  destruct (run_format exec args _) as [r w1] eqn:E.
  apply run_format_cases in E.
  destruct E as [[-> _]|(rc' & cmd' & evs & -> & Hrc & Hin & Hout & _)].
  - rewrite print_say, run_lint_trace, print_say, subprocess_run_unchecked,
      print_say.
    discriminate.
  - intros [= <- <- <-].
    split; [exact Hrc|]; split; [exact Hin|].
    exists ([Print "🔍 Running pre-build verification...";
             Print (String.append nl "📝 Formatting code...")] ++ evs).
    rewrite Hout; cbn [out say]; rewrite <- !app_assoc; reflexivity.
Qed.

End CommandOutcomes.

Lemma run_format_success_trace_witness :
  exists w',
    run_format all_pass None (World [] []) = (Ok tt, w') /\
    launches (out w') = [autoflake_cmd; black_cmd; isort_cmd].
Proof.
  eexists; split; [reflexivity|].
  rewrite (run_format_success_trace all_pass None (World [] []) _ eq_refl).
  reflexivity.
Defined.

Lemma run_format_called_process_error_witness :
  exists w',
    run_format sorter_fails None (World [] []) =
      (Raise (CalledProcessError 2 isort_cmd), w') /\
    In isort_cmd [autoflake_cmd; black_cmd; isort_cmd].
Proof.
  pose (w' := snd (run_format sorter_fails None (World [] []))).
  assert (E : run_format sorter_fails None (World [] []) =
              (Raise (CalledProcessError 2 isort_cmd), w'))
    by (vm_compute; reflexivity).
  exists w'; split; [exact E|].
  apply (run_format_called_process_error sorter_fails None (World [] []) w' 2
           isort_cmd E).
Defined.

Lemma run_verify_called_process_error_witness :
  exists w',
    run_verify sorter_fails None (World [] []) =
      (Raise (CalledProcessError 2 isort_cmd), w') /\
    In isort_cmd [autoflake_cmd; black_cmd; isort_cmd].
Proof.
  pose (w' := snd (run_verify sorter_fails None (World [] []))).
  assert (E : run_verify sorter_fails None (World [] []) =
              (Raise (CalledProcessError 2 isort_cmd), w'))
    by (vm_compute; reflexivity).
  exists w'; split; [exact E|].
  apply (run_verify_called_process_error sorter_fails None (World [] []) w' 2
           isort_cmd E).
Defined.



Section VerifyOutcome.

Variable exec : list string -> world -> Z * directory.

(** X13.  When [run_verify] returns normally it has launched six commands,
    once each and in this order: the remover, the formatter, the sorter, the
    style checker, the type checker, and the package builder last. *)
Theorem run_verify_success_launches (args : option (list string)) (w w' : world) :
  run_verify exec args w = (Ok tt, w') ->
  launches (out w') =
  launches (out w) ++
  [autoflake_cmd; black_cmd; isort_cmd; flake8_cmd; mypy_cmd; build_cmd].
Proof.
  unfold run_verify, bind; rewrite !print_say.
  destruct (run_format exec args _) as [r w1] eqn:E.
  apply run_format_cases in E.
  destruct E as [[-> Hout]|(rc & cmd & evs & -> & _)]; [|discriminate].
  rewrite print_say, run_lint_trace, print_say, subprocess_run_unchecked,
    print_say.
  intros [= <-].
  repeat (rewrite launches_say || rewrite launches_launched).
  rewrite Hout, launches_app; cbn [out say launches].
  rewrite !launches_app, <- !app_assoc; cbn [launches app].
  rewrite ?app_nil_r; reflexivity.
Qed.

End VerifyOutcome.

Lemma run_verify_success_launches_witness :
  exists w',
    run_verify checkers_fail None (World [] []) = (Ok tt, w') /\
    launches (out w') =
    [autoflake_cmd; black_cmd; isort_cmd; flake8_cmd; mypy_cmd; build_cmd].
Proof.
  pose (w' := snd (run_verify checkers_fail None (World [] []))).
  assert (E : run_verify checkers_fail None (World [] []) = (Ok tt, w'))
    by (vm_compute; reflexivity).
  exists w'; split; [exact E|].
  apply (run_verify_success_launches checkers_fail None (World [] []) w' E).
Defined.

(** ** More on the argument parser *)

Lemma startswith_flag_append (k : flag) (v : string) :
  Str.startswith (String.append (flag_prefix k) v) (flag_prefix k) = true.
Proof. destruct k; unfold Str.startswith; cbn; destruct v; reflexivity. Qed.

Lemma set_set_other (k k' : flag) (v v' : string) (p : params) :
  k <> k' -> set k v (set k' v' p) = set k' v' (set k v p).
Proof. destruct k, k'; intros H; try reflexivity; contradiction. Qed.

Lemma arg_effect_commute (a b : string) (p : params) :
  (forall k, Str.startswith a (flag_prefix k) = true ->
             Str.startswith b (flag_prefix k) = false) ->
  arg_effect (arg_effect p a) b = arg_effect (arg_effect p b) a.
Proof.
  intros H.
  destruct (recognized a) eqn:Ra;
    [|rewrite !(arg_effect_unrecognized _ a Ra); reflexivity].
  destruct (recognized b) eqn:Rb;
    [|rewrite !(arg_effect_unrecognized _ b Rb); reflexivity].
  destruct (recognized_flag a Ra) as (k & v & ->).
  destruct (recognized_flag b Rb) as (k' & v' & ->).
  rewrite !arg_effect_flag; apply set_set_other.
  intros E; subst k'; specialize (H k (startswith_flag_append k v)).
  rewrite startswith_flag_append in H; discriminate.
Qed.

Lemma contains_before (c : ascii) (s : string) :
  Str.contains c (Str.before c s) = false.
Proof.
  induction s as [|c' s IH]; simpl; [reflexivity|].
  destruct (Ascii.eqb c' c) eqn:E; simpl; [reflexivity|].
  rewrite E; exact IH.
Qed.

Lemma get_set_other (k k' : flag) (v : string) (p : params) :
  k <> k' -> get k' (set k v p) = get k' p.
Proof. destruct k, k'; intros H; try reflexivity; contradiction. Qed.

Lemma flag_eq_dec (k k' : flag) : {k = k'} + {k <> k'}.
Proof. decide equality. Qed.

Lemma arg_effect_no_equals (p : params) (arg : string) :
  (forall k, Str.contains "=" (get k p) = false) ->
  forall k, Str.contains "=" (get k (arg_effect p arg)) = false.
Proof.
  intros H k.
  destruct (recognized arg) eqn:R;
    [|rewrite (arg_effect_unrecognized _ _ R); apply H].
  destruct (recognized_flag arg R) as (k' & v & ->).
  rewrite arg_effect_flag.
  destruct (flag_eq_dec k' k) as [->|Hne].
  - rewrite get_set; apply contains_before.
  - rewrite (get_set_other _ _ _ _ Hne); apply H.
Qed.

(** X6.  Two neighbouring tokens that do not carry the same flag can
    change places without changing what the parser resolves. *)
Theorem tokens_of_different_flags_commute (pre post : list string) (a b : string) :
  (forall k, Str.startswith a (flag_prefix k) = true ->
             Str.startswith b (flag_prefix k) = false) ->
  example_params (Some (pre ++ a :: b :: post)) =
  example_params (Some (pre ++ b :: a :: post)).
Proof.
  intros H; rewrite !example_params_fold, !fold_left_app; cbn [fold_left].
  rewrite (arg_effect_commute a b _ H); reflexivity.
Qed.

Lemma tokens_of_different_flags_commute_witness :
  example_params (Some ([] ++ "--ticker=AAPL" :: "--period=week" :: [])) =
  example_params (Some ([] ++ "--period=week" :: "--ticker=AAPL" :: [])).
Proof.
  apply (tokens_of_different_flags_commute [] [] "--ticker=AAPL" "--period=week").
  intros [| |]; unfold Str.startswith; cbn; intros H;
    [reflexivity | discriminate H | discriminate H].
Defined.

(** X7.  No resolved parameter ever contains an ['=']: whatever the
    tokens, each of the three values is free of it. *)
Theorem resolved_values_hold_no_equals (args : option (list string)) :
  exists p,
    example_params args = Ok p /\
    forall k, Str.contains "=" (get k p) = false.
Proof.
  destruct args as [l|];
    [|exists defaults; split; [reflexivity | intros [| |]; reflexivity]].
  rewrite example_params_fold; eexists; split; [reflexivity|].
  assert (H : forall p, (forall k, Str.contains "=" (get k p) = false) ->
                        forall k, Str.contains "=" (get k (fold_left arg_effect l p)) = false).
  { induction l as [|a l IH]; intros p Hp; [exact Hp|].
    cbn [fold_left]; apply IH, arg_effect_no_equals, Hp. }
  apply H; intros [| |]; reflexivity.
Qed.

(** ** What [run_clean] removes and what it keeps *)

Lemma remove_artifacts_exact (ps : list string) :
  (forall p, In p ps -> exists c, top_level p c) ->
  forall (fs : directory) (log : list event),
    NoDup (map fst fs) ->
    exists log',
      for_each ps remove_artifact (World fs log) =
      (Ok tt,
       World (filter (fun e => negb (existsb (fun p => hits p e) ps)) fs) log').
Proof.
  induction ps as [|p ps IH]; intros Ht fs log Hn.
  - exists log; cbn [existsb negb]; rewrite filter_all by reflexivity; reflexivity.
  - destruct (Ht p (or_introl eq_refl)) as [c Hp].
    assert (Ht' : forall q, In q ps -> exists c, top_level q c)
      by (intros q Hq; apply Ht; right; exact Hq).
    assert (Hhit : forall e, hits p e =
                             String.eqb (fst e) c &&
                             (is_dir (snd e) || negb (Str.endswith p "/")))
      by (intros e; unfold hits; rewrite (proj2 Hp); reflexivity).
    cbn [for_each].
    destruct (stat fs p) as [x|] eqn:S.
    + rewrite (bind_ok _ _ _ _ _ (remove_artifact_present p c fs log x Hp S)).
      destruct (IH Ht' (delete c fs) (log ++ [Print (String.append "Removed " p)]))
        as (log' & E); [apply NoDup_names_filter, Hn|].
      exists log'; rewrite E; f_equal; f_equal.
      unfold delete; rewrite filter_filter.
      apply filter_ext_in; intros [k y] Hin; cbn [existsb fst snd].
      rewrite Hhit; cbn [fst snd].
      destruct (String.eqb_spec k c) as [->|Hne]; [|reflexivity].
      rewrite (stat_top_level _ _ _ Hp), (In_lookup _ _ _ Hn Hin) in S.
      destruct y as [|sub]; [|reflexivity].
      destruct (Str.endswith p "/"); [discriminate | reflexivity].
    + rewrite (bind_ok _ _ _ _ _ (remove_artifact_absent p (World fs log) S)).
      destruct (IH Ht' fs log Hn) as (log' & E).
      exists log'; rewrite E; f_equal; f_equal.
      apply filter_ext_in; intros [k y] Hin; cbn [existsb fst snd].
      rewrite Hhit; cbn [fst snd].
      destruct (String.eqb_spec k c) as [->|Hne]; [|reflexivity].
      rewrite (stat_top_level _ _ _ Hp), (In_lookup _ _ _ Hn Hin) in S.
      destruct y as [|sub]; [|discriminate].
      destruct (Str.endswith p "/"); [reflexivity | discriminate].
Qed.

Lemma hits_fixed (e : string * node) :
  existsb (fun p => hits p e) fixed_artifacts =
  (is_dir (snd e) &&
   existsb (String.eqb (fst e))
           ["build"; "dist"; ".pytest_cache"; ".mypy_cache"; "htmlcov"])
  || String.eqb (fst e) ".coverage".
Proof.
  destruct e as [k x]; unfold fixed_artifacts, hits; cbn [existsb fst snd].
  change (path_components "build/") with ["build"].
  change (path_components "dist/") with ["dist"].
  change (path_components ".pytest_cache/") with [".pytest_cache"].
  change (path_components ".mypy_cache/") with [".mypy_cache"].
  change (path_components "htmlcov/") with ["htmlcov"].
  change (path_components ".coverage") with [".coverage"].
  change (Str.endswith "build/" "/") with true.
  change (Str.endswith "dist/" "/") with true.
  change (Str.endswith ".pytest_cache/" "/") with true.
  change (Str.endswith ".mypy_cache/" "/") with true.
  change (Str.endswith "htmlcov/" "/") with true.
  change (Str.endswith ".coverage" "/") with false.
  destruct (is_dir x), (String.eqb k "build"), (String.eqb k "dist"),
    (String.eqb k ".pytest_cache"), (String.eqb k ".mypy_cache"),
    (String.eqb k "htmlcov"), (String.eqb k ".coverage"); reflexivity.
Qed.

Lemma hits_eggs (fs : directory) (k : string) (x : node) :
  wf fs = true -> In (k, x) fs ->
  existsb (fun p => hits p (k, x))
          (filter (fun item => Str.endswith item ".egg-info" && isdir_at fs item)
                  (map fst fs)) =
  is_dir x && Str.endswith k ".egg-info".
Proof.
  intros Hwf Hin; apply wf_node_dir in Hwf; destruct Hwf as [Hn Hw].
  assert (Hdir : isdir_at fs k = is_dir x).
  { unfold isdir_at.
    rewrite (stat_name _ _ (proj1 (Hw _ _ Hin))), (In_lookup _ _ _ Hn Hin).
    reflexivity. }
  apply Bool.eq_iff_eq_true; rewrite existsb_exists, andb_true_iff; split.
  - intros (p & Hp & Hh).
    apply filter_In in Hp; destruct Hp as [Hp Hegg].
    apply andb_true_iff in Hegg; destruct Hegg as [Hegg Hd].
    apply in_map_iff in Hp; destruct Hp as ([k' x'] & <- & Hin'); cbn [fst] in *.
    pose proof (proj1 (Hw _ _ Hin')) as Hv.
    unfold hits in Hh; rewrite (proj2 (top_level_name _ Hv)) in Hh.
    cbn [fst snd] in Hh; apply andb_true_iff in Hh; destruct Hh as [Hk _].
    apply String.eqb_eq in Hk; subst k'.
    rewrite Hdir in Hd; split; assumption.
  - intros [Hd Hegg]; exists k; split.
    + apply filter_In; split.
      * change k with (fst (k, x)); apply in_map, Hin.
      * rewrite Hegg, Hdir, Hd; reflexivity.
    + unfold hits; rewrite (proj2 (top_level_name _ (proj1 (Hw _ _ Hin)))).
      cbn [fst snd]; rewrite String.eqb_refl, Hd; reflexivity.
Qed.

(** The tree [run_clean] leaves. *)
Lemma run_clean_tree (args : option (list string)) (fs : directory)
  (log : list event) :
  wf fs = true ->
  exists log',
    run_clean args (World fs log) = (Ok tt, World (cleaned fs) log').
Proof.
  intros Hwf; pose proof Hwf as Hwf0.
  apply wf_node_dir in Hwf; destruct Hwf as [Hn Hw].
  unfold run_clean.
  rewrite (bind_ok _ _ _ _ _ (artifact_list_spec (World fs log))); cbn [cwd].
  set (eggs := filter (fun item => Str.endswith item ".egg-info" && isdir_at fs item)
                      (map fst fs)).
  destruct (remove_artifacts_exact (fixed_artifacts ++ eggs)) with (fs := fs) (log := log)
    as (log1 & E1); [|exact Hn|].
  { intros p Hp; apply in_app_or in Hp; destruct Hp as [Hp|Hp].
    - apply top_level_fixed, Hp.
    - exists p; apply top_level_name.
      apply filter_In in Hp; destruct Hp as [Hp _].
      apply in_map_iff in Hp; destruct Hp as ([k x] & <- & Hin).
      apply (Hw _ _ Hin). }
  rewrite (bind_ok _ _ _ _ _ E1).
  assert (Efs : filter (fun e => negb (existsb (fun p => hits p e) (fixed_artifacts ++ eggs))) fs =
                filter (fun e => negb (is_artifact e)) fs).
  { apply filter_ext_in; intros [k x] Hin; f_equal.
    rewrite existsb_app, hits_fixed; unfold eggs.
    rewrite (hits_eggs fs k x Hwf0 Hin); reflexivity. }
  rewrite Efs.
  set (fs1 := filter (fun e => negb (is_artifact e)) fs).
  assert (Hwf1 : wf_node (Dir fs1) = true) by (apply wf_filter, Hwf0).
  destruct (walk_purges (S (height (Dir fs1))) "." [] fs1 fs1 log1 is_path_root
              eq_refl Hwf1 (Nat.le_succ_diag_r _)) as [log2 E2].
  change (walk _ _ _ _) with (os_walk "." remove_caches (World fs1 log1)) in E2.
  rewrite (bind_ok _ _ _ _ _ E2).
  unfold graft; cbn [alter].
  eexists; reflexivity.
Qed.

Lemma lookup_purge_dir (c : string) (es : directory) :
  NoDup (map fst es) ->
  lookup c (purge_dir es) =
  match lookup c es with
  | Some x => if is_cache (c, x) then None else Some (purge x)
  | None => None
  end.
Proof.
  intros Hn; unfold purge_dir.
  rewrite lookup_filter by (rewrite map_map; exact Hn).
  rewrite lookup_map_values.
  destruct (lookup c es) as [x|]; [|reflexivity]; cbn [option_map].
  rewrite is_cache_purge; destruct (is_cache (c, x)); reflexivity.
Qed.

Lemma find_purge_inv (cs : list string) :
  forall (n y : node),
    wf_node n = true -> find cs (purge n) = Some y ->
    exists x, find cs n = Some x /\ y = purge x.
Proof.
  induction cs as [|c cs IH]; intros n y Hwf H.
  - injection H as <-; exists n; split; reflexivity.
  - destruct n as [|es]; [discriminate|].
    rewrite purge_dir_eq in H; cbn [find] in *.
    apply wf_node_dir in Hwf; destruct Hwf as [Hn Hw].
    rewrite (lookup_purge_dir c es Hn) in H.
    destruct (lookup c es) as [x0|] eqn:L; [|discriminate].
    destruct (is_cache (c, x0)); [discriminate|].
    apply (IH x0 y (proj2 (Hw _ _ (lookup_In _ _ _ L))) H).
Qed.

Lemma find_purge_spared (cs : list string) :
  forall (n x : node),
    wf_node n = true -> find cs n = Some x ->
    forallb (fun d => negb (String.eqb d "__pycache__") &&
                      negb (Str.endswith d ".pyc")) cs = true ->
    find cs (purge n) = Some (purge x).
Proof.
  induction cs as [|c cs IH]; intros n x Hwf H Hs.
  - injection H as <-; reflexivity.
  - destruct n as [|es]; [discriminate|].
    rewrite purge_dir_eq; cbn [find forallb] in *.
    apply wf_node_dir in Hwf; destruct Hwf as [Hn Hw].
    apply andb_true_iff in Hs; destruct Hs as [Hc Hs].
    apply andb_true_iff in Hc; destruct Hc as [Hc1 Hc2].
    apply negb_true_iff in Hc1, Hc2.
    rewrite (lookup_purge_dir c es Hn).
    destruct (lookup c es) as [x0|] eqn:L; [|discriminate].
    assert (is_cache (c, x0) = false) as ->
        by (unfold is_cache; cbn [fst snd]; destruct (is_dir x0); assumption).
    apply (IH x0 x (proj2 (Hw _ _ (lookup_In _ _ _ L))) H Hs).
Qed.

Lemma find_filter_inv (g : string * node -> bool) (cs : list string)
  (fs : directory) (y : node) :
  NoDup (map fst fs) ->
  find cs (Dir (filter g fs)) = Some y ->
  exists x, find cs (Dir fs) = Some x /\ is_dir y = is_dir x.
Proof.
  intros Hn; destruct cs as [|c cs]; cbn [find].
  - intros [= <-]; exists (Dir fs); split; reflexivity.
  - rewrite (lookup_filter _ _ _ Hn).
    destruct (lookup c fs) as [x0|]; [|discriminate].
    destruct (g (c, x0)); [|discriminate].
    intros H; exists y; split; [exact H | reflexivity].
Qed.

Lemma clean_find (cs : list string) :
  forall n m, clean n = true -> find cs n = Some m -> clean m = true.
Proof.
  induction cs as [|c cs IH]; intros n m Hc H.
  - injection H as <-; exact Hc.
  - destruct n as [|es]; [discriminate|]; cbn [find] in H.
    destruct (lookup c es) as [x0|] eqn:L; [|discriminate].
    apply (IH x0 m); [|exact H].
    apply (proj1 (clean_dir es) Hc _ _ (lookup_In _ _ _ L)).
Qed.

(** X8.  On a well-formed tree [run_clean] returns normally and leaves
    exactly this tree: the current directory without its directories named
    [build], [dist], [.pytest_cache], [.mypy_cache], [htmlcov], without its
    entry [.coverage] and without its directories named [*.egg-info], and
    below that without any [__pycache__] directory or [*.pyc] file. *)
Theorem run_clean_result (args : option (list string)) (fs : directory)
  (log : list event) :
  wf fs = true ->
  exists log',
    run_clean args (World fs log) =
    (Ok tt,
     World (purge_dir (filter (fun e => negb (is_artifact e)) fs)) log').
Proof. apply run_clean_tree. Qed.

(** X9.  [run_clean] only removes.  Whatever a path reaches after the run,
    the same path reached before it, and it was of the same kind: nothing
    is created, moved, or turned from a file into a directory or back. *)
Theorem run_clean_only_removes (args : option (list string)) (fs : directory)
  (log : list event) :
  wf fs = true ->
  exists fs1 log1,
    run_clean args (World fs log) = (Ok tt, World fs1 log1) /\
    forall cs y,
      find cs (Dir fs1) = Some y ->
      exists x, find cs (Dir fs) = Some x /\ is_dir y = is_dir x.
Proof.
  intros Hwf; destruct (run_clean_tree args fs log Hwf) as [log1 E].
  exists (cleaned fs), log1; split; [exact E|].
  intros cs y H; unfold cleaned in H; rewrite <- purge_dir_eq in H.
  apply find_purge_inv in H; [|apply wf_filter, Hwf].
  destruct H as (x1 & H1 & ->).
  apply find_filter_inv in H1; [|apply wf_node_dir in Hwf; apply Hwf].
  destruct H1 as (x & Hx & Hk); exists x; split; [exact Hx|].
  rewrite is_dir_purge; exact Hk.
Qed.

(** X10.  [run_clean] keeps what is neither an artifact nor a cache entry.
    An entry reached by components of which the first is none of the fixed
    artifact names and does not end in [.egg-info], and none is
    [__pycache__] or ends in [.pyc], is reached by the same components
    after the run: a file as it was, a directory without its cache
    entries. *)
Theorem run_clean_spares_sources (args : option (list string)) (fs : directory)
  (log : list event) (cs : list string) (x : node) :
  wf fs = true ->
  spared cs = true ->
  find cs (Dir fs) = Some x ->
  exists fs1 log1,
    run_clean args (World fs log) = (Ok tt, World fs1 log1) /\
    find cs (Dir fs1) = Some (purge x).
Proof.
  intros Hwf Hs Hx; destruct (run_clean_tree args fs log Hwf) as [log1 E].
  exists (cleaned fs), log1; split; [exact E|].
  unfold cleaned; rewrite <- purge_dir_eq.
  destruct cs as [|c cs]; [discriminate|].
  cbn [spared] in Hs.
  apply andb_true_iff in Hs; destruct Hs as [Htop Hs].
  apply andb_true_iff in Htop; destruct Htop as [Hfix Hegg].
  apply negb_true_iff in Hfix, Hegg.
  apply find_purge_spared; [apply wf_filter, Hwf | | exact Hs].
  pose proof (proj1 (proj1 (wf_node_dir fs) Hwf)) as Hn.
  cbn [find] in *; rewrite (lookup_filter _ _ _ Hn).
  destruct (lookup c fs) as [x0|]; [|discriminate].
  assert (is_artifact (c, x0) = false) as ->; [|exact Hx].
  unfold is_artifact; cbn [fst snd existsb] in *.
  rewrite Hegg, andb_false_r, orb_false_r.
  repeat (apply orb_false_iff in Hfix; destruct Hfix as [? Hfix]).
  repeat match goal with E : String.eqb c _ = false |- _ => rewrite E; clear E end.
  rewrite andb_false_r; reflexivity.
Qed.

(** X11.  After [run_clean] none of the six fixed artifact paths exists,
    no entry of the current directory named [*.egg-info] is a directory,
    and no directory at any depth holds a [__pycache__] directory or a
    [*.pyc] file. *)
Theorem run_clean_leaves_no_artifact (args : option (list string))
  (fs : directory) (log : list event) :
  wf fs = true ->
  exists fs1 log1,
    run_clean args (World fs log) = (Ok tt, World fs1 log1) /\
    (forall p, In p fixed_artifacts -> exists_at fs1 p = false) /\
    (forall item, In item (map fst fs1) -> Str.endswith item ".egg-info" = true ->
                  isdir_at fs1 item = false) /\
    (forall cs es k x,
        find cs (Dir fs1) = Some (Dir es) -> In (k, x) es ->
        is_cache (k, x) = false).
Proof.
  intros Hwf.
  destruct (run_clean_settles args fs log Hwf) as (fs1 & log1 & E & _ & Hc & Hfix & Hegg).
  exists fs1, log1; split; [exact E|]; split; [|split; [exact Hegg|]].
  - intros p Hp; unfold exists_at; rewrite (Hfix p Hp); reflexivity.
  - intros cs es k x Hf Hin.
    apply (proj1 (clean_dir es) (clean_find cs _ _ Hc Hf) _ _ Hin).
Qed.

(** ** What [run_clean] prints *)

Lemma reports_silent {A : Type} (m : M A) :
  (forall w, out (snd (m w)) = out w) -> reports m.
Proof.
  intros H w; exists []; rewrite app_nil_r; split; [apply H | constructor].
Qed.

Lemma reports_ret {A : Type} (a : A) : reports (ret a).
Proof. apply reports_silent; reflexivity. Qed.

Lemma reports_bind {A B : Type} (m : M A) (k : A -> M B) :
  reports m -> (forall a, reports (k a)) -> reports (bind m k).
Proof.
  intros Hm Hk w; unfold bind.
  destruct (Hm w) as (evs1 & E1 & F1).
  destruct (m w) as [[a|e] w1]; cbn [snd] in *.
  - destruct (Hk a w1) as (evs2 & E2 & F2).
    exists (evs1 ++ evs2); rewrite E2, E1, app_assoc; split; [reflexivity|].
    apply Forall_app; split; assumption.
  - exists evs1; split; assumption.
Qed.

Lemma reports_for_each {A : Type} (l : list A) (body : A -> M unit) :
  (forall x, reports (body x)) -> reports (for_each l body).
Proof.
  intros H; induction l as [|x l IH]; cbn [for_each].
  - apply reports_ret.
  - apply reports_bind; [apply H | intros _; exact IH].
Qed.

Lemma reports_removed (p : string) : reports (print (String.append "Removed " p)).
Proof.
  intros w; exists [Print (String.append "Removed " p)]; split; [reflexivity|].
  constructor; [right; exists p; reflexivity | constructor].
Qed.

Lemma reports_os_path_exists (p : string) : reports (os_path_exists p).
Proof. apply reports_silent; reflexivity. Qed.

Lemma reports_os_path_isdir (p : string) : reports (os_path_isdir p).
Proof. apply reports_silent; reflexivity. Qed.

Lemma reports_shutil_rmtree (p : string) : reports (shutil_rmtree p).
Proof.
  apply reports_silent; intros w.
  unfold shutil_rmtree, bind, get_cwd, put_cwd, raise.
  destruct (stat (cwd w) p) as [[|sub]|]; [reflexivity| |reflexivity].
  destruct (unlink (cwd w) p); reflexivity.
Qed.

Lemma reports_os_remove (p : string) : reports (os_remove p).
Proof.
  apply reports_silent; intros w.
  unfold os_remove, bind, get_cwd, put_cwd, raise.
  destruct (stat (cwd w) p) as [[|sub]|]; [|reflexivity|reflexivity].
  destruct (unlink (cwd w) p); reflexivity.
Qed.

Lemma reports_artifact_list : reports artifact_list.
Proof.
  unfold artifact_list; apply reports_bind.
  - apply reports_silent; intros w.
    unfold os_listdir, bind, get_cwd, ret, raise.
    destruct (stat (cwd w) ".") as [[|es]|]; reflexivity.
  - intros items; apply reports_silent; intros w.
    rewrite add_egg_info_spec; reflexivity.
Qed.

Lemma reports_remove_artifact (p : string) : reports (remove_artifact p).
Proof.
  unfold remove_artifact.
  apply reports_bind; [apply reports_os_path_exists|].
  intros [|]; [|apply reports_ret].
  apply reports_bind; [apply reports_os_path_isdir|].
  intros isdir; apply reports_bind; [|intros _; apply reports_removed].
  destruct isdir; [apply reports_shutil_rmtree | apply reports_os_remove].
Qed.

Lemma reports_remove_caches (root : string) (dirs files : list string) :
  reports (remove_caches root dirs files).
Proof.
  unfold remove_caches.
  apply reports_bind; [|intros _]; apply reports_for_each; intros x.
  - unfold remove_cache_dir; destruct (String.eqb x "__pycache__"); [|apply reports_ret].
    apply reports_bind; [apply reports_shutil_rmtree | intros _; apply reports_removed].
  - unfold remove_pyc; destruct (Str.endswith x ".pyc"); [|apply reports_ret].
    apply reports_bind; [apply reports_os_remove | intros _; apply reports_removed].
Qed.

Lemma reports_walk (fuel : nat) (top : string)
  (body : string -> list string -> list string -> M unit) :
  (forall root dirs files, reports (body root dirs files)) ->
  reports (walk fuel top body).
Proof.
  intros Hb; revert top; induction fuel as [|k IH]; intros top; cbn [walk].
  - apply reports_silent; reflexivity.
  - apply reports_bind; [apply reports_silent; reflexivity|].
    intros fs; destruct (scandir fs top) as [[dirs files]|]; [|apply reports_ret].
    apply reports_bind; [apply Hb|].
    intros _; apply reports_for_each; intros d; apply IH.
Qed.

Lemma launches_of_reports (evs : list event) :
  Forall report_line evs -> launches evs = [].
Proof.
  induction 1 as [|ev evs Hev _ IH]; [reflexivity|].
  destruct Hev as [->|[p ->]]; exact IH.
Qed.

(** X12.  On every tree, and whether it returns or raises, [run_clean]
    adds to the trace nothing but lines [Removed ...] and the closing line:
    it launches no command. *)
Theorem run_clean_only_reports (args : option (list string)) (w : world) :
  exists evs,
    out (snd (run_clean args w)) = out w ++ evs /\
    Forall report_line evs /\
    launches (out (snd (run_clean args w))) = launches (out w).
Proof.
  assert (H : reports (run_clean args)).
  { unfold run_clean.
    apply reports_bind; [apply reports_artifact_list|].
    intros ps; apply reports_bind;
      [apply reports_for_each, reports_remove_artifact|].
    intros _; apply reports_bind.
    - unfold os_walk; apply reports_bind; [apply reports_silent; reflexivity|].
      intros fs; apply reports_walk, reports_remove_caches.
    - intros _ w0; exists [Print clean_complete]; split; [reflexivity|].
      constructor; [left; reflexivity | constructor]. }
  destruct (H w) as (evs & E & F).
  exists evs; split; [exact E|]; split; [exact F|].
  rewrite E, launches_app, (launches_of_reports evs F), app_nil_r; reflexivity.
Qed.

Lemma run_clean_result_witness :
  wf example_tree = true /\
  exists log',
    run_clean None (World example_tree []) =
    (Ok tt,
     World [("dist", File); ("notes.egg-info", File);
            ("stonkwise",
             Dir [("__init__.py", File);
                  ("core", Dir [("x.py", File); ("deep", Dir [])])]);
            ("__pycache__", File)] log').
Proof.
  split; [reflexivity|].
  exact (run_clean_result None example_tree [] eq_refl).
Defined.

Lemma run_clean_only_removes_witness :
  wf example_tree = true /\
  exists fs1 log1,
    run_clean None (World example_tree []) = (Ok tt, World fs1 log1) /\
    forall y, find ["stonkwise"; "core"] (Dir fs1) = Some y ->
              exists x, find ["stonkwise"; "core"] (Dir example_tree) = Some x /\
                        is_dir y = is_dir x.
Proof.
  split; [reflexivity|].
  destruct (run_clean_only_removes None example_tree [] eq_refl) as (fs1 & log1 & E & H).
  exists fs1, log1; split; [exact E | intros y; apply H].
Defined.

Lemma run_clean_spares_sources_witness :
  wf example_tree = true /\
  spared ["stonkwise"; "core"; "x.py"] = true /\
  find ["stonkwise"; "core"; "x.py"] (Dir example_tree) = Some File /\
  exists fs1 log1,
    run_clean None (World example_tree []) = (Ok tt, World fs1 log1) /\
    find ["stonkwise"; "core"; "x.py"] (Dir fs1) = Some File.
Proof.
  split; [reflexivity|]; split; [reflexivity|]; split; [reflexivity|].
  exact (run_clean_spares_sources None example_tree []
           ["stonkwise"; "core"; "x.py"] File eq_refl eq_refl eq_refl).
Defined.

Lemma run_clean_leaves_no_artifact_witness :
  wf example_tree = true /\
  exists fs1 log1,
    run_clean None (World example_tree []) = (Ok tt, World fs1 log1) /\
    exists_at fs1 "build/" = false.
Proof.
  split; [reflexivity|].
  destruct (run_clean_leaves_no_artifact None example_tree [] eq_refl)
    as (fs1 & log1 & E & Hfix & _).
  exists fs1, log1; split; [exact E|].
  apply Hfix; left; reflexivity.
Defined.
